(** * Moment Catcher: a shallow embedding of [app.py]

    The development follows the class [MomentCatcher] and the Flask handler
    [upload_video].  A finite Python float is embedded as the rational it
    denotes ([Q]); infinities and NaN are outside the embedding.
    Comparisons, [max], [min] and [int] are exact on floats and are taken
    as such.  The arithmetic on times is rounded as binary64 rounds it, by
    the operations of [Float]: the row count of the audio fallback (line
    54), the bounds of a moment (lines 162-163) and the running total of
    the assembler (line 188).  Doubling and halving ([fps * 2],
    [frame_length / 2]) are exact in binary64.  The feature values, the
    scores and the window length [fps * 0.1] are computed on the rationals.
    The numerical kernels of the libraries the program calls (FFT, square
    root, OpenCV image operators) are collected in one record, [Kernels]. *)

From Stdlib Require Import List ZArith QArith Qround Lia Lqa Bool Arith.
From Stdlib Require Import Ascii String Permutation Sorted.
Import ListNotations.

(** ** Python and numpy primitives *)

(** The exceptions the embedded code can raise. *)
Inductive exn : Type :=
| ValueError
| OSError.

Inductive result (A : Type) : Type :=
| Ok (a : A)
| Raise (e : exn).
Arguments Ok {A} a.
Arguments Raise {A} e.

Module Py.

(** [int(x)] on a float: truncation toward zero. *)
Definition int (x : Q) : Z := Z.quot (Qnum x) (Zpos (Qden x)).

(** [len(l)] as a Python integer. *)
Definition len {A} (l : list A) : Z := Z.of_nat (List.length l).

(** The normalisation Python applies to a slice bound. *)
Definition clamp_index (n i : Z) : nat :=
  Z.to_nat (if (i <? 0)%Z then Z.max 0 (n + i) else Z.min i n).

(** [l[i:]]. *)
Definition slice_from {A} (i : Z) (l : list A) : list A :=
  skipn (clamp_index (len l) i) l.

(** [l[i:j]]. *)
Definition slice {A} (i j : Z) (l : list A) : list A :=
  let lo := clamp_index (len l) i in
  let hi := clamp_index (len l) j in
  firstn (hi - lo) (skipn lo l).

(** [range(start, stop, step)]; a zero step raises [ValueError]. *)
Definition range (start stop step : Z) : result (list Z) :=
  if (step =? 0)%Z then Raise ValueError
  else
    let count :=
      if (0 <? step)%Z
      then (if (start <? stop)%Z then (stop - start - 1) / step + 1 else 0)%Z
      else (if (stop <? start)%Z then (start - stop - 1) / (- step) + 1 else 0)%Z in
    Ok (map (fun k => (start + Z.of_nat k * step)%Z) (seq 0 (Z.to_nat count))).

(** [max(a, b)] and [min(a, b)]: the first argument is kept unless the
    second is strictly larger (smaller). *)
Definition max (a b : Q) : Q := if Qlt_le_dec a b then b else a.
Definition min (a b : Q) : Q := if Qlt_le_dec b a then b else a.

(** [sum(l)]. *)
Definition sum (l : list Q) : Q := fold_right Qplus 0 l.

(** Stable insertion sort by a key, the order [list.sort(key=...)] and a
    stable [argsort] produce. *)
Fixpoint insert_by {A} (key : A -> Q) (a : A) (l : list A) : list A :=
  match l with
  | [] => [a]
  | b :: l' =>
      if Qlt_le_dec (key b) (key a) then b :: insert_by key a l'
      else a :: l
  end.

Definition sort_by {A} (key : A -> Q) (l : list A) : list A :=
  fold_right (insert_by key) [] l.

End Py.

(** ** Binary64 arithmetic

    Round to nearest, ties to even, with a 53-bit significand and the
    smallest exponent of the subnormal range; every result is a reduced
    fraction.  An operation takes the rationals its float arguments denote
    and rounds the exact result, as IEEE 754 prescribes.  Overflow is not
    modelled. *)

Module Float.

(** [2 ^ e] for any integer [e]. *)
Definition pow2 (e : Z) : Q :=
  if (0 <=? e)%Z then inject_Z (2 ^ e) else 1 # Z.to_pos (2 ^ (- e)).

Definition round_half_even (x : Q) : Z :=
  let f := Qfloor x in
  match Qcompare (x - inject_Z f) (1 # 2) with
  | Lt => f
  | Gt => (f + 1)%Z
  | Eq => if Z.even f then f else (f + 1)%Z
  end.

(** The exponent of the unit in the last place of a positive [a]: the [e]
    with [2 ^ 52 <= a / 2 ^ e < 2 ^ 53], or [-1074] for a subnormal. *)
Definition exponent (a : Q) : Z :=
  let e0 := (Z.log2 (Qnum a) - Z.log2 (Zpos (Qden a)) - 52)%Z in
  let e := if Qlt_le_dec (a / pow2 e0) (inject_Z (2 ^ 52)) then (e0 - 1)%Z
           else e0 in
  Z.max e (-1074).

Definition round_pos (a : Q) : Q :=
  let e := exponent a in
  Qred (inject_Z (round_half_even (a / pow2 e)) * pow2 e).

(** The float nearest to [x]. *)
Definition round (x : Q) : Q :=
  match Qcompare x 0 with
  | Eq => 0
  | Gt => round_pos x
  | Lt => Qred (- round_pos (- x))
  end.

Definition add (a b : Q) : Q := round (a + b).
Definition sub (a b : Q) : Q := round (a - b).
Definition mul (a b : Q) : Q := round (a * b).
Definition div (a b : Q) : Q := round (a / b).

End Float.

(** A two-dimensional array is the list of its rows; a one-dimensional
    array is a list. *)
Definition matrix : Type := list (list Q).

Module Np.

(** [a.shape[1]] of an array with at least one row. *)
Definition ncols (a : matrix) : nat :=
  match a with
  | [] => 0
  | r :: _ => List.length r
  end.

(** [np.zeros((n, 1))]; a negative dimension raises [ValueError]. *)
Definition zeros_column (n : Z) : result matrix :=
  if (n <? 0)%Z then Raise ValueError
  else Ok (repeat [0] (Z.to_nat n)).

(** [np.mean(a, axis=1)]. *)
Definition mean_rows (a : matrix) : list Q :=
  map (fun r => Py.sum r / inject_Z (Py.len r)) a.

(** [np.hstack([a, b])] on two-dimensional arrays: the row counts must
    agree. *)
Definition hstack (a b : matrix) : result matrix :=
  if Nat.eqb (List.length a) (List.length b)
  then Ok (map (fun p => fst p ++ snd p) (combine a b))
  else Raise ValueError.

Definition vdot (r w : list Q) : Q :=
  Py.sum (map (fun p => fst p * snd p) (combine r w)).

(** [np.dot(a, w)] for a two-dimensional [a] and a one-dimensional [w]:
    [a.shape[1]] must equal [w.shape[0]]. *)
Definition dot (a : matrix) (w : list Q) : result (list Q) :=
  if Nat.eqb (ncols a) (List.length w)
  then Ok (map (fun r => vdot r w) a)
  else Raise ValueError.

(** [np.argsort(x)]: a permutation of the indices that sorts [x].  numpy's
    default sort is not stable, so the order it gives to equal values is
    not specified; the embedding keeps them in index order.  The properties
    below use only that the result is a permutation that sorts [x]. *)
Definition argsort (x : list Q) : list nat :=
  map fst (Py.sort_by snd (combine (seq 0 (List.length x)) x)).

(** [np.percentile(x, q)] with the default linear interpolation between
    the two nearest ranks.  The pipeline only calls it on a non-empty
    array. *)
Definition percentile (x : list Q) (q : Q) : Q :=
  let s := Py.sort_by (fun v => v) x in
  let n := List.length s in
  let virtual_index := (q / 100) * (inject_Z (Z.of_nat n) - 1) in
  let lo := Z.to_nat (Qfloor virtual_index) in
  let hi := Nat.min (lo + 1) (n - 1) in
  let frac := virtual_index - inject_Z (Qfloor virtual_index) in
  nth lo s 0 + (nth hi s 0 - nth lo s 0) * frac.

(** [x[i]]. *)
Definition item (x : list Q) (i : nat) : Q := nth i x 0.

(** [a[keep]] for a boolean mask [keep]. *)
Definition mask {A} (keep : list bool) (a : list A) : list A :=
  map fst (filter snd (combine a keep)).

End Np.

(** ** scipy.signal.find_peaks *)

Module Scipy.

(** Inner [while] of [_local_maxima_1d]: advance [i_ahead] over the
    samples equal to [x[i]]. *)
Fixpoint plateau_end (x : list Q) (i_max : nat) (xi : Q)
    (i_ahead fuel : nat) : nat :=
  match fuel with
  | O => i_ahead
  | S fuel' =>
      if (i_ahead <? i_max)%nat && Qeq_bool (Np.item x i_ahead) xi
      then plateau_end x i_max xi (S i_ahead) fuel'
      else i_ahead
  end.

(** Outer [while i < i_max] of [_local_maxima_1d]; a plateau contributes
    its midpoint. *)
Fixpoint local_maxima_loop (x : list Q) (i_max i fuel : nat) : list nat :=
  match fuel with
  | O => []
  | S fuel' =>
      if (i <? i_max)%nat then
        if Qlt_le_dec (Np.item x (i - 1)) (Np.item x i) then
          let i_ahead :=
            plateau_end x i_max (Np.item x i) (i + 1) (List.length x) in
          if Qlt_le_dec (Np.item x i_ahead) (Np.item x i) then
            ((i + (i_ahead - 1)) / 2)%nat
              :: local_maxima_loop x i_max (i_ahead + 1) fuel'
          else local_maxima_loop x i_max (i + 1) fuel'
        else local_maxima_loop x i_max (i + 1) fuel'
      else []
  end.

Definition local_maxima_1d (x : list Q) : list nat :=
  local_maxima_loop x (List.length x - 1) 1 (List.length x).

(** [_select_by_property] with a lower bound only: [hmin <= x[peak]]. *)
Definition select_by_height (x : list Q) (hmin : Q) (peaks : list nat)
  : list nat :=
  filter (fun p => Qle_bool hmin (Np.item x p)) peaks.

(** [keep[k] = 0]. *)
Fixpoint clear (k : nat) (keep : list bool) : list bool :=
  match keep, k with
  | [], _ => []
  | _ :: t, O => false :: t
  | b :: t, S k' => b :: clear k' t
  end.

Definition peak_at (peaks : list nat) (k : nat) : Z :=
  Z.of_nat (nth k peaks 0%nat).

(** [k = j - 1; while 0 <= k and peaks[j] - peaks[k] < distance:
    keep[k] = 0; k -= 1].  The counter [k1] is [k + 1]. *)
Fixpoint clear_left (peaks : list nat) (distance : Z) (j k1 : nat)
    (keep : list bool) : list bool :=
  match k1 with
  | O => keep
  | S k =>
      if (peak_at peaks j - peak_at peaks k <? distance)%Z
      then clear_left peaks distance j k (clear k keep)
      else keep
  end.

(** [k = j + 1; while k < peaks_size and peaks[k] - peaks[j] < distance:
    keep[k] = 0; k += 1]. *)
Fixpoint clear_right (peaks : list nat) (distance : Z) (j k fuel : nat)
    (keep : list bool) : list bool :=
  match fuel with
  | O => keep
  | S fuel' =>
      if (k <? List.length peaks)%nat
         && (peak_at peaks k - peak_at peaks j <? distance)%Z
      then clear_right peaks distance j (S k) fuel' (clear k keep)
      else keep
  end.

(** Body of the priority loop for the peak at position [j]. *)
Definition visit (peaks : list nat) (distance : Z) (keep : list bool)
    (j : nat) : list bool :=
  if nth j keep false then
    clear_right peaks distance j (S j) (List.length peaks)
      (clear_left peaks distance j j keep)
  else keep.

(** [_select_by_peak_distance]: positions are visited from the highest
    priority down. *)
Definition select_by_peak_distance (peaks : list nat) (priority : list Q)
    (distance : Z) : list bool :=
  fold_left (visit peaks distance) (rev (Np.argsort priority))
    (repeat true (List.length peaks)).

(** [find_peaks(x, height=height, distance=distance)], returning the
    peak indices. *)
Definition find_peaks (x : list Q) (height : Q) (distance : Z)
  : result (list nat) :=
  if (distance <? 1)%Z then Raise ValueError
  else
    let peaks := local_maxima_1d x in
    let peaks := select_by_height x height peaks in
    let keep :=
      select_by_peak_distance peaks (map (Np.item x) peaks) distance in
    Ok (Np.mask keep peaks).

(** What [find_peaks] calls a peak: a sample, or the midpoint of a flat
    run of samples, that lies strictly above both neighbours of the run and
    is not at either end of [x]. *)
Definition local_maximum (x : list Q) (p : nat) : Prop :=
  exists l r : nat,
    (1 <= l <= p)%nat /\ (p <= r)%nat /\ (r + 1 < List.length x)%nat /\
    (forall k, (l <= k <= r)%nat -> Np.item x k == Np.item x p) /\
    Np.item x (l - 1) < Np.item x p /\
    Np.item x (r + 1) < Np.item x p.

(** The invariant of the priority loop: a kept peak that has been visited
    has no kept peak closer than [distance]. *)
Definition spaced_from (peaks : list nat) (distance : Z)
    (visited : nat -> Prop) (keep : list bool) : Prop :=
  forall a b,
    visited a -> nth a keep false = true ->
    (b < List.length peaks)%nat -> b <> a -> nth b keep false = true ->
    (distance <= Z.abs (peak_at peaks b - peak_at peaks a))%Z.

End Scipy.

(** ** Moments and the trailer assembler *)

(** A moment is the tuple [(start_time, end_time, score)]. *)
Record moment : Type := Moment {
  start_time : Q;
  end_time : Q;
  score : Q
}.

(** The handle [self.clip.subclip(start_time, end_time)] returns. *)
Record subclip : Type := Subclip {
  t_start : Q;
  t_end : Q
}.

(** Line 188, [total_duration += (end_time - start_time)]: a float
    subtraction followed by a float addition. *)
Definition add_duration (total_duration : Q) (m : moment) : Q :=
  Float.add total_duration (Float.sub (end_time m) (start_time m)).

(** The [for] loop of [generate_trailer] (lines 179-188): [clips] and
    [total_duration] are the loop-carried variables, [ms] the moments that
    remain to be visited. *)
Fixpoint clips_loop (max_duration : Q) (ms : list moment)
    (clips : list subclip) (total_duration : Q) : list subclip :=
  match ms with
  | [] => clips
  | m :: rest =>
      if Qle_bool max_duration total_duration then clips
      else clips_loop max_duration rest
             (clips ++ [Subclip (start_time m) (end_time m)])
             (add_duration total_duration m)
  end.

Definition select_clips (max_duration : Q) (ms : list moment) : list subclip :=
  clips_loop max_duration ms [] 0.

(** The value of [total_duration] once the moments [ms] have been added to
    it, in order. *)
Definition accumulated (total_duration : Q) (ms : list moment) : Q :=
  fold_left add_duration ms total_duration.

(** The running total of the assembler after it has admitted [ms]. *)
Definition moments_duration (ms : list moment) : Q := accumulated 0 ms.

Definition clip_of (m : moment) : subclip :=
  Subclip (start_time m) (end_time m).

(** ** Library kernels

    A decoded frame is a grid of BGR pixels, a grayscale frame a grid of
    intensities.  The kernels below are computed by numpy's FFT, by
    scikit-learn and by OpenCV; the program only combines their results. *)

Definition frame : Type := list (list (Z * Z * Z)).
Definition gray_frame : Type := list (list Z).

Record Kernels : Type := {
  (** [np.sum(np.abs(fft) * np.abs(freqs)) / np.sum(np.abs(fft))] *)
  spectral_centroid : list Q -> Q;
  (** square root, used by [StandardScaler] *)
  sqrt : Q -> Q;
  (** [cv2.cvtColor(frame, cv2.COLOR_BGR2GRAY)] *)
  cvtColor_gray : frame -> gray_frame;
  (** [np.mean(cv2.absdiff(gray, prev_gray))] *)
  mean_absdiff : gray_frame -> gray_frame -> Q;
  (** [np.sum(cv2.Canny(gray, 50, 150) > 0) / (h * w)] *)
  canny_density : gray_frame -> Q;
  (** [np.var(gray)] *)
  var_gray : gray_frame -> Q;
  (** [np.var(frame.reshape(-1, 3), axis=0).mean()] *)
  color_var : frame -> Q;
  (** [werkzeug.utils.secure_filename] *)
  secure_filename : string -> string
}.

(** ** sklearn.preprocessing.StandardScaler *)

Module Sklearn.

Definition column (a : matrix) (j : nat) : list Q :=
  map (fun r => nth j r 0) a.

Definition mean (c : list Q) : Q := Py.sum c / inject_Z (Py.len c).

Definition var (c : list Q) : Q :=
  Py.sum (map (fun v => (v - mean c) * (v - mean c)) c) / inject_Z (Py.len c).

(** A column of zero variance is left unscaled. *)
Definition scale (K : Kernels) (c : list Q) : Q :=
  let s := sqrt K (var c) in
  if Qeq_bool s 0 then 1 else s.

(** [StandardScaler().fit_transform(a)]: every column is centred and
    divided by its standard deviation. *)
Definition fit_transform (K : Kernels) (a : matrix) : matrix :=
  map (fun r =>
         map (fun jv => (snd jv - mean (column a (fst jv)))
                        / scale K (column a (fst jv)))
             (combine (seq 0 (List.length r)) r))
      a.

End Sklearn.

(** ** The video source *)

(** [audio.to_soundarray()]: one sample per row, with one or several
    channels. *)
Inductive soundarray : Type :=
| Mono (samples : list Q)
| Channels (rows : matrix).

Record AudioFileClip : Type := {
  audio_fps : Q;
  to_soundarray : soundarray
}.

Record VideoFileClip : Type := {
  clip_fps : Q;
  clip_duration : Q;
  clip_audio : option AudioFileClip;
  clip_frames : list frame
}.

(** The fields [__init__] sets; [self.moments] is mutable and lives in the
    heap below. *)
Record MomentCatcher : Type := {
  video_path : string;
  clip : VideoFileClip;
  fps : Q;
  duration : Q
}.

(** ** Feature extraction *)

Definition energy (frame : list Q) : Q :=
  Py.sum (map (fun v => v * v) frame).

(** [np.diff]. *)
Fixpoint diff (l : list Z) : list Z :=
  match l with
  | a :: (b :: _) as t => (b - a)%Z :: diff t
  | _ => []
  end.

(** [np.sum(np.diff(np.sign(frame)) != 0) / len(frame)]. *)
Definition zcr (frame : list Q) : Q :=
  let signs := map (fun v => Z.sgn (Qnum v)) frame in
  let crossings := filter (fun d => negb (d =? 0)%Z) (diff signs) in
  inject_Z (Py.len crossings) / inject_Z (Py.len frame).

Definition frame_length (self : MomentCatcher) : Z :=
  Py.int (fps self * 0.1).

Definition hop_length (self : MomentCatcher) : Z :=
  Py.int (inject_Z (frame_length self) / 2).

(** The mono mix of lines 57-59. *)
Definition audio_array (audio : AudioFileClip) : list Q :=
  match to_soundarray audio with
  | Mono samples => samples
  | Channels rows => Np.mean_rows rows
  end.

(** The window starts [range(0, len(audio_array) - frame_length,
    hop_length)]. *)
Definition window_starts (self : MomentCatcher) (samples : list Q)
  : result (list Z) :=
  Py.range 0 (Py.len samples - frame_length self) (hop_length self).

Definition extract_audio_features (K : Kernels) (self : MomentCatcher)
  : result matrix :=
  match clip_audio (clip self) with
  | None => Np.zeros_column (Py.int (Float.mul (duration self) (fps self)))
  | Some audio =>
      let audio_array := audio_array audio in
      match window_starts self audio_array with
      | Raise e => Raise e
      | Ok starts =>
          Ok (map (fun i =>
                     let frame :=
                       Py.slice i (i + frame_length self) audio_array in
                     [energy frame; zcr frame; spectral_centroid K frame])
                  starts)
      end
  end.

(** The [while True] loop over the decoded frames; [prev_gray] is defined
    exactly when [frame_count > 0]. *)
Fixpoint visual_loop (K : Kernels) (frames : list frame)
    (prev_gray : option gray_frame) (features : matrix) : matrix :=
  match frames with
  | [] => features
  | f :: rest =>
      let gray := cvtColor_gray K f in
      let motion_score :=
        match prev_gray with
        | Some p => mean_absdiff K gray p
        | None => 0
        end in
      visual_loop K rest (Some gray)
        (features ++ [[motion_score; canny_density K gray;
                       var_gray K gray; color_var K f]])
  end.

Definition extract_visual_features (K : Kernels) (self : MomentCatcher)
  : matrix :=
  visual_loop K (clip_frames (clip self)) None [].

(** ** Scoring and peak selection *)

Definition weights : list Q := [0.3; 0.2; 0.1; 0.2; 0.1; 0.1].

(** Lines 136-146: align, stack, standardize and score. *)
Definition excitement_scores (K : Kernels)
    (audio_features visual_features : matrix) : result (list Q) :=
  let min_len :=
    Nat.min (List.length audio_features) (List.length visual_features) in
  let audio_features := firstn min_len audio_features in
  let visual_features := firstn min_len visual_features in
  match Np.hstack audio_features visual_features with
  | Raise e => Raise e
  | Ok combined_features =>
      let normalized_features := Sklearn.fit_transform K combined_features in
      Np.dot normalized_features weights
  end.

(** Lines 149-151. *)
Definition peaks_of_scores (fps : Q) (excitement_scores : list Q)
  : result (list nat) :=
  Scipy.find_peaks excitement_scores
    (Np.percentile excitement_scores 70) (Py.int (fps * 2)).

(** Lines 155-157: [peaks[np.argsort(peak_scores)[-num_moments:]]]. *)
Definition top_peaks (excitement_scores : list Q) (peaks : list nat)
    (num_moments : Z) : list nat :=
  let peak_scores := map (Np.item excitement_scores) peaks in
  let top_indices := Py.slice_from (- num_moments) (Np.argsort peak_scores) in
  map (fun i => nth i peaks 0%nat) top_indices.

(** Lines 162-164: [peak / self.fps] and [moment_duration / 2] are float
    divisions, the difference and the sum are rounded in turn.  The lines
    are reached with [int(fps * 2) >= 1] only, so [fps] is not zero. *)
Definition moment_of_peak (fps duration moment_duration : Q)
    (excitement_scores : list Q) (peak : nat) : moment :=
  let t := Float.div (inject_Z (Z.of_nat peak)) fps in
  let half := Float.div moment_duration 2 in
  Moment (Py.max 0 (Float.sub t half))
         (Py.min duration (Float.add t half))
         (Np.item excitement_scores peak).

(** Lines 160-167. *)
Definition moments_of_peaks (fps duration moment_duration : Q)
    (excitement_scores : list Q) (top_peaks : list nat) : list moment :=
  Py.sort_by start_time
    (map (moment_of_peak fps duration moment_duration excitement_scores)
         top_peaks).

(** Lines 148-167 as a function of the score sequence: [Some] is the new
    value of [self.moments], [None] leaves it as it was (no peak found). *)
Definition moments_from_scores (fps duration : Q) (num_moments : Z)
    (moment_duration : Q) (excitement_scores : list Q)
  : result (option (list moment)) :=
  match peaks_of_scores fps excitement_scores with
  | Raise e => Raise e
  | Ok peaks =>
      if (0 <? List.length peaks)%nat then
        Ok (Some (moments_of_peaks fps duration moment_duration
                    excitement_scores
                    (top_peaks excitement_scores peaks num_moments)))
      else Ok None
  end.

(** ** Effects: the instance state and the calls into the outside world *)

Inductive event : Type :=
| FileSave (path : string)
| FileRemove (path : string)
| ClipOpen (path : string)
| ClipClose (path : string)
| WriteVideofile (path : string) (clips : list subclip)
| TrailerClose
| SubclipClose (c : subclip).

Record heap : Type := {
  moments : list moment;
  log : list event
}.

(** What a path is to the outside world: a place that cannot be written
    to (a directory, a missing folder), a place for a file that does not
    decode as a video, or a place for a video. *)
Inductive file_status : Type :=
| Unwritable
| Unreadable
| Video (c : VideoFileClip).

(** What the outside world decides: what each path of the upload is, which
    output paths can be rendered to, and the text [str(e)] the libraries
    give an exception (one text for each exception class). *)
Record world : Type := {
  file_at : string -> file_status;
  can_write : string -> bool;
  str : exn -> string
}.

(** Whether [file.save(path)] succeeds. *)
Definition can_save (W : world) (path : string) : bool :=
  match file_at W path with
  | Unwritable => false
  | _ => true
  end.

(** What [VideoFileClip(path)] finds. *)
Definition open_video (W : world) (path : string) : option VideoFileClip :=
  match file_at W path with
  | Video c => Some c
  | _ => None
  end.

Definition M (A : Type) : Type := heap -> result A * heap.

Definition ret {A} (a : A) : M A := fun h => (Ok a, h).

Definition raise {A} (e : exn) : M A := fun h => (Raise e, h).

Definition mbind {A B} (c : M A) (k : A -> M B) : M B :=
  fun h =>
    match c h with
    | (Ok a, h') => k a h'
    | (Raise e, h') => (Raise e, h')
    end.

Notation "x <- c1 ;; c2" := (mbind c1 (fun x => c2))
  (at level 61, c1 at next level, right associativity).
Notation "c1 ;; c2" := (mbind c1 (fun _ => c2))
  (at level 61, right associativity).

Definition lift {A} (r : result A) : M A := fun h => (r, h).

Definition emit (e : event) : M unit :=
  fun h => (Ok tt, {| moments := moments h; log := log h ++ [e] |}).

Definition get_moments : M (list moment) := fun h => (Ok (moments h), h).

Definition set_moments (ms : list moment) : M unit :=
  fun h => (Ok tt, {| moments := ms; log := log h |}).

(** [try: body except Exception as e: handler(e)]. *)
Definition try_except {A} (body : M A) (handler : exn -> M A) : M A :=
  fun h =>
    match body h with
    | (Raise e, h') => handler e h'
    | done => done
    end.

(** [try: body finally: cleanup]. *)
Definition try_finally {A} (body : M A) (cleanup : M unit) : M A :=
  fun h =>
    let (r, h') := body h in
    match cleanup h' with
    | (Ok _, h'') => (r, h'')
    | (Raise e, h'') => (Raise e, h'')
    end.

Fixpoint for_each {A} (l : list A) (body : A -> M unit) : M unit :=
  match l with
  | [] => ret tt
  | a :: rest => body a ;; for_each rest body
  end.

(** ** MomentCatcher *)

Definition default_num_moments : Z := 10.
Definition default_moment_duration : Q := 3.
Definition default_max_duration : Q := 30.

(** The instance [__init__] builds around an opened clip. *)
Definition catcher_of (path : string) (c : VideoFileClip) : MomentCatcher := {|
  video_path := path; clip := c;
  fps := clip_fps c; duration := clip_duration c
|}.

(** [MomentCatcher(video_path)]. *)
Definition MomentCatcher_init (W : world) (path : string) : M MomentCatcher :=
  match open_video W path with
  | None => raise OSError
  | Some c =>
      emit (ClipOpen path) ;;
      set_moments [] ;;
      ret (catcher_of path c)
  end.

Definition detect_moments (K : Kernels) (self : MomentCatcher)
    (num_moments : Z) (moment_duration : Q) : M (list moment) :=
  audio_features <- lift (extract_audio_features K self) ;;
  let visual_features := extract_visual_features K self in
  (if (0 <? List.length audio_features)%nat
      && (0 <? List.length visual_features)%nat
   then
     scores <- lift (excitement_scores K audio_features visual_features) ;;
     found <- lift (moments_from_scores (fps self) (duration self)
                      num_moments moment_duration scores) ;;
     match found with
     | Some ms => set_moments ms
     | None => ret tt
     end
   else ret tt) ;;
  get_moments.

(** [trailer.write_videofile(output_path, ...)]. *)
Definition write_videofile (W : world) (output_path : string)
    (clips : list subclip) : M unit :=
  if can_write W output_path then emit (WriteVideofile output_path clips)
  else raise OSError.

(** Lines 175-176: [if not self.moments: self.detect_moments()]. *)
Definition detect_if_empty (K : Kernels) (self : MomentCatcher) : M unit :=
  ms <- get_moments ;;
  match ms with
  | [] =>
      detect_moments K self default_num_moments default_moment_duration ;;
      ret tt
  | _ => ret tt
  end.

(** Lines 178-201: cut the admitted moments, render, close. *)
Definition assemble (W : world) (output_path : string) (max_duration : Q)
  : M bool :=
  ms <- get_moments ;;
  let clips := select_clips max_duration ms in
  match clips with
  | [] => ret false
  | _ =>
      write_videofile W output_path clips ;;
      emit TrailerClose ;;
      for_each clips (fun c => emit (SubclipClose c)) ;;
      ret true
  end.

Definition generate_trailer (W : world) (K : Kernels) (self : MomentCatcher)
    (output_path : string) (max_duration : Q) : M bool :=
  detect_if_empty K self ;;
  assemble W output_path max_duration.

Definition close (self : MomentCatcher) : M unit :=
  emit (ClipClose (video_path self)).

(** ** The upload handler *)

Definition UPLOAD_FOLDER : string := "uploads".
Definition OUTPUT_FOLDER : string := "outputs".

Definition path_join (folder name : string) : string :=
  (folder ++ "/" ++ name)%string.

(** [request.files.get('video')], with the uploaded file's name. *)
Record request : Type := {
  files_video : option string
}.

Inductive response : Type :=
| Success (n_moments : nat) (output_file : string) (moments_data : list moment)
| Failure (status : Z) (error : string).

(** [file.save(filepath)], line 226. *)
Definition file_save (W : world) (filepath : string) : M unit :=
  if can_save W filepath then emit (FileSave filepath) else raise OSError.

(** Whether the events so far leave a file at [path]: the last [save] or
    [remove] on it was a [save].  [present] is the answer before them. *)
Fixpoint on_disk (events : list event) (path : string) (present : bool)
  : bool :=
  match events with
  | [] => present
  | FileSave p :: rest =>
      on_disk rest path (if String.eqb p path then true else present)
  | FileRemove p :: rest =>
      on_disk rest path (if String.eqb p path then false else present)
  | _ :: rest => on_disk rest path present
  end.

(** [os.path.exists(filepath)] on the upload. *)
Definition os_path_exists (filepath : string) : M bool :=
  fun h => (Ok (on_disk (log h) filepath false), h).

(** Lines 254-255. *)
Definition remove_upload (filepath : string) : M unit :=
  present <- os_path_exists filepath ;;
  if present : bool then emit (FileRemove filepath) else ret tt.

(** The request is answered, or an exception leaves the handler: the
    [save] of line 226 stands before the [try]. *)
Definition upload_video (W : world) (K : Kernels) (req : request)
  : M response :=
  match files_video req with
  | None => ret (Failure 400 "No video file provided")
  | Some name =>
      if String.eqb name "" then ret (Failure 400 "No file selected")
      else
        let filename := secure_filename K name in
        let filepath := path_join UPLOAD_FOLDER filename in
        file_save W filepath ;;
        try_finally
          (try_except
             (catcher <- MomentCatcher_init W filepath ;;
              found <- detect_moments K catcher
                         default_num_moments default_moment_duration ;;
              let output_filename := ("trailer_" ++ filename)%string in
              let output_path := path_join OUTPUT_FOLDER output_filename in
              success <- generate_trailer W K catcher output_path
                           default_max_duration ;;
              close catcher ;;
              if success : bool
              then ret (Success (List.length found) output_filename found)
              else ret (Failure 500 "Failed to generate trailer"))
             (fun e =>
                ret (Failure 500 ("Processing failed: " ++ str W e)%string)))
          (remove_upload filepath)
  end.

(** ** Runs of an instance

    What a caller does with an instance once [__init__] has returned: it
    calls the three methods, in any order and with any arguments.  An
    exception a call raises is the caller's to handle; the instance keeps
    the state the call left. *)





(** The state a run starts from. *)
Definition empty_heap : heap := {| moments := []; log := [] |}.

(** ** The installation scripts

    [setup.py] and [test_installation.py] act on the directory tree, which
    is embedded as the list of the directories that exist. *)

Definition filesystem : Type := list string.

(** [os.path.exists(path)]. *)
Definition path_exists (fs : filesystem) (path : string) : bool :=
  existsb (String.eqb path) fs.

(** The proper ancestors of a relative path, outermost first: the prefixes
    that end just before a ["/"]. *)
Fixpoint ancestors_from (prefix rest : string) : list string :=
  match rest with
  | EmptyString => []
  | String c rest' =>
      if Ascii.eqb c "/"%char
      then (if String.eqb prefix "" then [] else [prefix])
           ++ ancestors_from (prefix ++ String c EmptyString) rest'
      else ancestors_from (prefix ++ String c EmptyString) rest'
  end.

Definition mkdir (fs : filesystem) (path : string) : filesystem :=
  if path_exists fs path then fs else path :: fs.

(** [os.makedirs(path, exist_ok=True)]: the missing ancestors are created
    first, then the directory itself; what exists is left alone. *)
Definition makedirs (path : string) (fs : filesystem) : filesystem :=
  fold_left mkdir (ancestors_from "" path ++ [path]) fs.

(** [setup.py], [create_directories]. *)
Definition setup_directories : list string :=
  ["uploads"; "outputs"; "static/css"; "static/js"; "templates"]%string.

Definition create_directories (fs : filesystem) : bool * filesystem :=
  (true, fold_left (fun fs directory => makedirs directory fs)
           setup_directories fs).

(** [test_installation.py], [test_directories]: the verdict and the missing
    directories. *)
Definition required_dirs : list string :=
  ["uploads"; "outputs"; "templates"; "static"]%string.

Definition test_directories (fs : filesystem) : bool * list string :=
  let missing_dirs :=
    filter (fun directory => negb (path_exists fs directory)) required_dirs in
  (Nat.eqb (List.length missing_dirs) 0, missing_dirs).

(** [app.py], lines 34-35: the two folders the application creates when it
    is imported. *)
Definition app_directories (fs : filesystem) : filesystem :=
  makedirs OUTPUT_FOLDER (makedirs UPLOAD_FOLDER fs).

(** What [setup.py] finds on the machine: the interpreter's
    [(major, minor)], whether [pip install] succeeds, whether [ffmpeg
    -version] runs. *)
Record setup_env : Type := {
  version_info : nat * nat;
  pip_succeeds : bool;
  ffmpeg_runs : bool
}.

(** [sys.version_info < (3, 8)] is a lexicographic comparison. *)
Definition check_python_version (env : setup_env) : bool :=
  let (major, minor) := version_info env in
  negb ((major <? 3)%nat || ((major =? 3)%nat && (minor <? 8)%nat)).

Definition install_requirements (env : setup_env) : bool := pip_succeeds env.

Definition check_ffmpeg (env : setup_env) : bool := ffmpeg_runs env.

Inductive setup_step : Type :=
| PipInstall
| FfmpegVersion.

(** How [main] ends: [sys.exit(code)], or its last line, with or without
    the FFmpeg warning. *)
Inductive setup_outcome : Type :=
| SysExit (code : Z)
| Completed (ffmpeg_ok : bool).

(** [setup.py], [main]: the outcome, the directory tree it leaves and the
    external commands it ran. *)
Definition setup_main (env : setup_env) (fs : filesystem)
  : setup_outcome * filesystem * list setup_step :=
  if negb (check_python_version env) then (SysExit 1, fs, [])
  else
    let (created, fs1) := create_directories fs in
    if negb created then (SysExit 1, fs1, [])
    else if negb (install_requirements env) then (SysExit 1, fs1, [PipInstall])
    else (Completed (check_ffmpeg env), fs1, [PipInstall; FfmpegVersion]).

(** ** Sample inputs

    A kernel instance and two sources on which the model can be run: a
    30 fps clip with a mono 44.1 kHz track and three frames, and a clip
    with neither audio nor frames. *)

Definition sample_kernels : Kernels := {|
  spectral_centroid := fun _ => 0;
  sqrt := fun v => v;
  cvtColor_gray := fun f => map (map (fun px => fst (fst px))) f;
  mean_absdiff := fun _ _ => 0;
  canny_density := fun _ => 0;
  var_gray := fun _ => 0;
  color_var := fun _ => 0;
  secure_filename := fun name => name
|}.

Definition sample_audio : AudioFileClip := {|
  audio_fps := 44100;
  to_soundarray := Mono [1; -1; 1; -1; 1; -1; 1; -1; 1; -1]
|}.

Definition sample_clip : VideoFileClip := {|
  clip_fps := 30;
  clip_duration := 1;
  clip_audio := Some sample_audio;
  clip_frames := [[]; []; []]
|}.

Definition silent_clip : VideoFileClip := {|
  clip_fps := 30;
  clip_duration := 1;
  clip_audio := None;
  clip_frames := []
|}.

Definition sample_world (c : VideoFileClip) : world := {|
  file_at := fun _ => Video c;
  can_write := fun _ => true;
  str := fun e =>
    match e with
    | ValueError => "shapes not aligned"%string
    | OSError => "could not be read"%string
    end
|}.

Definition sample_request : request := {| files_video := Some "clip.mp4"%string |}.

(** * Properties *)

(** ** Rounding *)

Lemma pow2_pos (e : Z) : 0 < Float.pow2 e.
Proof.
  unfold Float.pow2. destruct (0 <=? e)%Z eqn:E.
  - apply Z.leb_le in E. change 0 with (inject_Z 0). rewrite <- Zlt_Qlt.
    apply Z.pow_pos_nonneg; lia.
  - reflexivity.
Qed.

Lemma round_half_even_floor (x : Q) : (Qfloor x <= Float.round_half_even x)%Z.
Proof.
  unfold Float.round_half_even.
  destruct (x - inject_Z (Qfloor x) ?= 1 # 2); try lia.
  destruct (Z.even (Qfloor x)); lia.
Qed.

Lemma round_pos_nonneg (a : Q) : 0 < a -> 0 <= Float.round_pos a.
Proof.
  intros Ha. unfold Float.round_pos. rewrite Qred_correct.
  apply Qmult_le_0_compat; [|apply Qlt_le_weak, pow2_pos].
  change 0 with (inject_Z 0). rewrite <- Zle_Qle.
  etransitivity; [|apply round_half_even_floor].
  change 0%Z with (Qfloor 0). apply Qfloor_resp_le.
  apply Qlt_le_weak. apply Qlt_shift_div_l; [apply pow2_pos|]. lra.
Qed.

Lemma round_nonneg (x : Q) : 0 <= x -> 0 <= Float.round x.
Proof.
  intros Hx. unfold Float.round.
  destruct (x ?= 0) eqn:E.
  - lra.
  - apply Qlt_alt in E. lra.
  - apply Qgt_alt in E. apply round_pos_nonneg. assumption.
Qed.

Lemma exponent_le (a : Q) :
  (Float.exponent a
   <= Z.max (Z.log2 (Qnum a) - Z.log2 (Zpos (Qden a)) - 52) (-1074))%Z.
Proof.
  unfold Float.exponent.
  destruct (Qlt_le_dec _ _); lia.
Qed.

Lemma pow2_nonpos (e : Z) :
  (e <= 0)%Z -> Float.pow2 e * inject_Z (2 ^ (- e)) == 1.
Proof.
  intros He. unfold Float.pow2.
  destruct (0 <=? e)%Z eqn:E.
  - apply Z.leb_le in E. replace e with 0%Z by lia. reflexivity.
  - assert (Hp : (0 < 2 ^ (- e))%Z) by (apply Z.pow_pos_nonneg; lia).
    unfold Qeq, Qmult, inject_Z.
    cbn [Qnum Qden]. rewrite Pos.mul_1_r, Z2Pos.id by assumption. lia.
Qed.

Lemma pow2_above (a : Q) :
  0 < a -> (0 < Float.exponent a)%Z -> Float.pow2 (Float.exponent a) <= a.
Proof.
  intros Ha He.
  pose proof (exponent_le a) as Hle.
  destruct a as [n d]. unfold Qlt in Ha. cbn [Qnum Qden] in Ha, Hle.
  assert (Hn : (0 < n)%Z) by lia.
  set (e := Float.exponent (n # d)) in *.
  unfold Float.pow2.
  destruct (Z.leb_spec 0 e) as [_|]; [|lia].
  unfold Qle, inject_Z. simpl.
  pose proof (Z.log2_spec n Hn) as [Hn1 _].
  pose proof (Z.log2_spec (Zpos d) ltac:(lia)) as [_ Hd2].
  pose proof (Z.log2_nonneg (Zpos d)) as Hld.
  pose proof (Z.log2_nonneg n) as Hln.
  assert (H1 : (2 ^ e * Zpos d <= 2 ^ e * 2 ^ Z.succ (Z.log2 (Zpos d)))%Z).
  { apply Z.mul_le_mono_nonneg_l; [apply Z.pow_nonneg; lia | lia]. }
  rewrite <- Z.pow_add_r in H1 by lia.
  assert (H2 : (2 ^ (e + Z.succ (Z.log2 (Zpos d))) <= 2 ^ Z.log2 n)%Z).
  { apply Z.pow_le_mono_r; lia. }
  lia.
Qed.

(** Rounding does not take a number that is at least one below one. *)
Lemma round_ge_1 (x : Q) : 1 <= x -> 1 <= Float.round x.
Proof.
  intros Hx. assert (Hpos : 0 < x) by lra.
  unfold Float.round.
  destruct (x ?= 0) eqn:E;
    [apply Qeq_alt in E; lra | apply Qlt_alt in E; lra |].
  unfold Float.round_pos. rewrite Qred_correct.
  set (e := Float.exponent x).
  pose proof (pow2_pos e) as Hp.
  pose proof (round_half_even_floor (x / Float.pow2 e)) as Hm.
  destruct (Z_le_gt_dec e 0) as [He|He].
  - pose proof (pow2_nonpos e He) as Hinv.
    set (k := (2 ^ (- e))%Z) in *.
    assert (Hk : (0 < k)%Z) by (apply Z.pow_pos_nonneg; lia).
    assert (Hkq : 0 < inject_Z k).
    { change 0 with (inject_Z 0). rewrite <- Zlt_Qlt. assumption. }
    assert (Hy : inject_Z k <= x / Float.pow2 e).
    { apply Qle_shift_div_l; [assumption|]. nra. }
    apply Qfloor_resp_le in Hy. rewrite Qfloor_Z in Hy.
    assert (Hmk : inject_Z k <= inject_Z (Float.round_half_even (x / Float.pow2 e))).
    { rewrite <- Zle_Qle. lia. }
    nra.
  - pose proof (pow2_above x Hpos ltac:(fold e; lia)) as Hab. fold e in Hab.
    assert (Hy : inject_Z 1 <= x / Float.pow2 e).
    { apply Qle_shift_div_l; [assumption|]. change (inject_Z 1) with 1. lra. }
    apply Qfloor_resp_le in Hy. rewrite Qfloor_Z in Hy.
    assert (Hm1 : 1 <= inject_Z (Float.round_half_even (x / Float.pow2 e))).
    { change 1 with (inject_Z 1). rewrite <- Zle_Qle. lia. }
    assert (Hp1 : 1 <= Float.pow2 e).
    { unfold Float.pow2. destruct (Z.leb_spec 0 e); [|lia].
      change 1 with (inject_Z 1). rewrite <- Zle_Qle.
      assert (0 < 2 ^ e)%Z by (apply Z.pow_pos_nonneg; lia). lia. }
    nra.
Qed.

Lemma int_nonneg (x : Q) : 0 <= x -> (0 <= Py.int x)%Z.
Proof.
  intros Hx. unfold Py.int. apply Z.quot_pos; [|lia].
  unfold Qle in Hx. simpl in Hx. lia.
Qed.

Lemma int_ge_1 (x : Q) : (1 <= Py.int x)%Z <-> 1 <= x.
Proof.
  unfold Py.int, Qle. destruct x as [n d]. cbn [Qnum Qden].
  rewrite Z.mul_1_r, Z.mul_1_l. split; intros H.
  - destruct (Z_lt_le_dec n (Zpos d)) as [Hlt|]; [|assumption].
    destruct (Z_lt_le_dec n 0) as [Hneg|Hnn].
    + pose proof (Z.quot_opp_l n (Zpos d) ltac:(lia)) as Ho.
      assert (0 <= (- n) ÷ Zpos d)%Z by (apply Z.quot_pos; lia). lia.
    + rewrite Z.quot_small in H by lia. lia.
  - apply Z.quot_le_lower_bound; lia.
Qed.

(** ** The assembler's stopping rule *)

Lemma clips_loop_prefix (max_duration : Q) (ms : list moment) :
  forall clips total,
  exists k : nat,
    (k <= List.length ms)%nat /\
    clips_loop max_duration ms clips total = clips ++ map clip_of (firstn k ms) /\
    (forall j, (j < k)%nat ->
       accumulated total (firstn j ms) < max_duration) /\
    ((k < List.length ms)%nat ->
       max_duration <= accumulated total (firstn k ms)).
Proof.
  induction ms as [|m rest IH]; intros clips total.
  - exists 0%nat. simpl. rewrite app_nil_r.
    repeat split; try lia.
  - simpl. destruct (Qle_bool max_duration total) eqn:Hstop.
    + exists 0%nat. simpl. rewrite app_nil_r.
      apply Qle_bool_iff in Hstop.
      repeat split; try lia.
      intros _. exact Hstop.
    + assert (Hlt : total < max_duration).
      { apply Qnot_le_lt. intro Hle. apply Qle_bool_iff in Hle. congruence. }
      destruct (IH (clips ++ [Subclip (start_time m) (end_time m)])
                   (add_duration total m))
        as (k & Hk & Hres & Hbefore & Hafter).
      exists (S k). simpl.
      repeat split.
      * lia.
      * rewrite Hres, <- app_assoc. reflexivity.
      * intros [|j] Hj.
        -- exact Hlt.
        -- apply (Hbefore j). lia.
      * intros Hlen. apply Hafter. lia.
Qed.

(** X27.  The running total is a float: eleven moments of a tenth of a
    second each sum to [0.9999999999999999] after ten additions, not to
    [1], so a budget of one second admits all eleven. *)
Theorem running_total_is_rounded :
  let tenth := Float.round 0.1 in
  let ms := repeat (Moment 0 tenth 0) 11 in
  moments_duration (firstn 10 ms) = 9007199254740991 # 9007199254740992 /\
  select_clips 1 ms = map clip_of ms.
Proof. vm_compute. split; reflexivity. Qed.

Lemma for_each_emit {A} (f : A -> event) (l : list A) :
  forall h : heap,
    for_each l (fun a => emit (f a)) h
    = (Ok tt, {| moments := moments h; log := log h ++ map f l |}).
Proof.
  induction l as [|a l IH]; intros h.
  - cbn. rewrite app_nil_r. destruct h; reflexivity.
  - cbn [for_each map]. unfold mbind at 1. unfold emit at 1.
    rewrite IH. cbn [moments log]. rewrite <- app_assoc. reflexivity.
Qed.

Lemma generate_trailer_step (W : world) (K : Kernels)
    (self : MomentCatcher) (output_path : string) (max_duration : Q)
    (h : heap) :
  generate_trailer W K self output_path max_duration h
  = match detect_if_empty K self h with
    | (Ok _, h') => assemble W output_path max_duration h'
    | (Raise e, h') => (Raise e, h')
    end.
Proof. reflexivity. Qed.

Lemma assemble_eq (W : world) (output_path : string) (max_duration : Q)
    (h : heap) :
  assemble W output_path max_duration h
  = match select_clips max_duration (moments h) with
    | [] => (Ok false, h)
    | c :: clips =>
        if can_write W output_path
        then (Ok true,
              {| moments := moments h;
                 log := log h
                        ++ [WriteVideofile output_path (c :: clips);
                            TrailerClose]
                        ++ map SubclipClose (c :: clips) |})
        else (Raise OSError, h)
    end.
Proof.
  unfold assemble. unfold mbind at 1. cbn [get_moments].
  destruct (select_clips max_duration (moments h)) as [|c clips];
    [reflexivity|].
  unfold write_videofile. destruct (can_write W output_path).
  - unfold mbind at 1. unfold emit at 1.
    unfold mbind at 1. unfold emit at 1.
    unfold mbind at 1. rewrite for_each_emit.
    cbn [ret moments log]. rewrite <- !app_assoc. reflexivity.
  - reflexivity.
Qed.



(** ** Shapes of the feature matrices and the scoring step *)

Lemma audio_features_width (K : Kernels) (self : MomentCatcher)
    (audio : AudioFileClip) (a : matrix) :
  clip_audio (clip self) = Some audio ->
  extract_audio_features K self = Ok a ->
  Forall (fun r => List.length r = 3%nat) a.
Proof.
  unfold extract_audio_features. intros -> H.
  destruct (window_starts self (audio_array audio)) as [starts|e];
    [|discriminate].
  injection H as <-. apply Forall_forall. intros r Hr.
  apply in_map_iff in Hr. destruct Hr as (i & <- & _). reflexivity.
Qed.

Lemma fallback_features_width (K : Kernels) (self : MomentCatcher)
    (a : matrix) :
  clip_audio (clip self) = None ->
  extract_audio_features K self = Ok a ->
  Forall (fun r => List.length r = 1%nat) a.
Proof.
  unfold extract_audio_features, Np.zeros_column. intros -> H.
  destruct (Py.int (Float.mul (duration self) (fps self)) <? 0)%Z;
    [discriminate|].
  injection H as <-. apply Forall_forall. intros r Hr.
  apply repeat_spec in Hr. subst r. reflexivity.
Qed.

Lemma visual_loop_shape (K : Kernels) (frames : list frame) :
  forall prev features,
    Forall (fun r => List.length r = 4%nat) features ->
    Forall (fun r => List.length r = 4%nat) (visual_loop K frames prev features)
    /\ List.length (visual_loop K frames prev features)
       = (List.length features + List.length frames)%nat.
Proof.
  induction frames as [|f rest IH]; intros prev features Hf; simpl.
  - split; [assumption | lia].
  - destruct (IH (Some (cvtColor_gray K f))
                (features ++ [[match prev with
                               | Some p => mean_absdiff K (cvtColor_gray K f) p
                               | None => 0
                               end; canny_density K (cvtColor_gray K f);
                               var_gray K (cvtColor_gray K f); color_var K f]]))
      as [Hw Hl].
    + apply Forall_app. split; [assumption|]. constructor; [reflexivity|constructor].
    + split; [assumption|]. rewrite Hl, length_app. simpl. lia.
Qed.

Lemma visual_features_shape (K : Kernels) (self : MomentCatcher) :
  Forall (fun r => List.length r = 4%nat) (extract_visual_features K self)
  /\ List.length (extract_visual_features K self)
     = List.length (clip_frames (clip self)).
Proof.
  unfold extract_visual_features.
  destruct (visual_loop_shape K (clip_frames (clip self)) None (@nil (list Q)))
    as [Hw Hl]; [constructor|].
  split; [assumption|]. rewrite Hl. reflexivity.
Qed.

(** Stacking [ca] audio columns on [cv] visual columns and scoring with the
    six weights fails whenever [ca + cv] is not six. *)
Lemma excitement_scores_shape_error (K : Kernels) (ca cv : nat)
    (a v : matrix) :
  Forall (fun r => List.length r = ca) a ->
  Forall (fun r => List.length r = cv) v ->
  a <> [] -> v <> [] -> (ca + cv)%nat <> 6%nat ->
  excitement_scores K a v = Raise ValueError.
Proof.
  intros Ha Hv Hna Hnv Hc.
  destruct a as [|ra a']; [congruence|].
  destruct v as [|rv v']; [congruence|].
  inversion Ha as [|? ? Hra _]; subst.
  inversion Hv as [|? ? Hrv _]; subst.
  unfold excitement_scores, Np.hstack.
  rewrite !length_firstn.
  replace (Nat.min (Nat.min (List.length (ra :: a')) (List.length (rv :: v')))
                   (List.length (ra :: a')) =?
           Nat.min (Nat.min (List.length (ra :: a')) (List.length (rv :: v')))
                   (List.length (rv :: v')))%nat with true
    by (symmetry; apply Nat.eqb_eq; lia).
  simpl. unfold Np.dot. simpl.
  rewrite length_map, length_combine, length_seq, Nat.min_id, length_app.
  destruct (Nat.eqb_spec (List.length ra + List.length rv) 6); [lia|reflexivity].
Qed.

Lemma visual_features_nonempty (K : Kernels) (self : MomentCatcher) :
  clip_frames (clip self) <> [] -> extract_visual_features K self <> [].
Proof.
  intros Hframes Hnil.
  destruct (visual_features_shape K self) as [_ Hlen].
  rewrite Hnil in Hlen. simpl in Hlen.
  destruct (clip_frames (clip self)); [congruence|discriminate].
Qed.

Lemma detect_moments_raises_with_audio (K : Kernels) (self : MomentCatcher)
    (audio : AudioFileClip) (a : matrix) (num_moments : Z)
    (moment_duration : Q) (h : heap) :
  clip_audio (clip self) = Some audio ->
  extract_audio_features K self = Ok a ->
  a <> [] ->
  clip_frames (clip self) <> [] ->
  excitement_scores K a (extract_visual_features K self) = Raise ValueError /\
  detect_moments K self num_moments moment_duration h = (Raise ValueError, h).
Proof.
  intros Haudio Ha Hna Hframes.
  pose proof (audio_features_width K self audio a Haudio Ha) as Hwa.
  destruct (visual_features_shape K self) as [Hwv _].
  pose proof (visual_features_nonempty K self Hframes) as Hnv.
  assert (Hscore : excitement_scores K a (extract_visual_features K self)
                   = Raise ValueError).
  { apply (excitement_scores_shape_error K 3 4); auto. }
  split; [assumption|].
  unfold detect_moments, mbind, lift. rewrite Ha.
  destruct a as [|ra a']; [congruence|].
  destruct (extract_visual_features K self) as [|rv v'] eqn:Ev; [congruence|].
  simpl. rewrite Hscore. reflexivity.
Qed.

(** C1.  On a source with an audio track, once both extractors deliver at
    least one row, the scoring step does not complete: the standardized
    matrix has seven columns (three audio, four visual), the weight vector
    has six entries, and [np.dot] raises [ValueError]; [detect_moments]
    raises with it and leaves the instance untouched. *)
Theorem scoring_raises_on_audio_source :
  forall (K : Kernels) (self : MomentCatcher) (audio : AudioFileClip)
         (a : matrix) (num_moments : Z) (moment_duration : Q) (h : heap),
    clip_audio (clip self) = Some audio ->
    extract_audio_features K self = Ok a ->
    a <> [] ->
    clip_frames (clip self) <> [] ->
    List.length weights = 6%nat /\
    Forall (fun r => List.length r = 3%nat) a /\
    Forall (fun r => List.length r = 4%nat) (extract_visual_features K self) /\
    excitement_scores K a (extract_visual_features K self) = Raise ValueError /\
    detect_moments K self num_moments moment_duration h = (Raise ValueError, h).
Proof.
  intros K self audio a num_moments moment_duration h Haudio Ha Hna Hframes.
  destruct (detect_moments_raises_with_audio K self audio a num_moments
              moment_duration h Haudio Ha Hna Hframes) as [Hscore Hdetect].
  destruct (visual_features_shape K self) as [Hwv _].
  repeat split; try assumption.
  apply (audio_features_width K self audio a Haudio Ha).
Qed.

Lemma scoring_raises_on_audio_source_witness :
  detect_moments sample_kernels (catcher_of "clip.mp4" sample_clip) 10 3
    empty_heap
  = (Raise ValueError, empty_heap).
Proof.
  apply (scoring_raises_on_audio_source sample_kernels
           (catcher_of "clip.mp4" sample_clip) sample_audio
           [[3; 2 # 3; 0]; [3; 2 # 3; 0]; [3; 2 # 3; 0]; [3; 2 # 3; 0];
            [3; 2 # 3; 0]; [3; 2 # 3; 0]; [3; 2 # 3; 0]]
           10%Z 3 empty_heap eq_refl eq_refl
           ltac:(discriminate) ltac:(discriminate)).
Defined.

(** Whatever the source, [detect_moments] either raises or returns
    [self.moments] as it found it: with one or three audio columns next to
    the four visual ones the scoring step cannot succeed, and without rows
    on either side it is skipped. *)
Lemma detect_moments_leaves_heap (K : Kernels) (self : MomentCatcher)
    (num_moments : Z) (moment_duration : Q) (h : heap) :
  (exists e, detect_moments K self num_moments moment_duration h = (Raise e, h))
  \/ detect_moments K self num_moments moment_duration h = (Ok (moments h), h).
Proof.
  unfold detect_moments, mbind, lift.
  destruct (extract_audio_features K self) as [a|e] eqn:Ha;
    [|left; exists e; reflexivity].
  destruct (visual_features_shape K self) as [Hwv _].
  destruct a as [|ra a']; [right; reflexivity|].
  destruct (extract_visual_features K self) as [|rv v'] eqn:Ev;
    [right; reflexivity|].
  left. exists ValueError. simpl.
  destruct (clip_audio (clip self)) as [audio|] eqn:Haudio.
  - rewrite (excitement_scores_shape_error K 3 4); auto; try discriminate.
    apply (audio_features_width K self audio); assumption.
  - rewrite (excitement_scores_shape_error K 1 4); auto; try discriminate.
    apply (fallback_features_width K self); assumption.
Qed.

(** ** The upload handler and the source handle *)

Lemma generate_trailer_nothing_stored (W : world) (K : Kernels)
    (self : MomentCatcher) (output_path : string) (max_duration : Q)
    (h : heap) :
  moments h = [] ->
  detect_moments K self default_num_moments default_moment_duration h
  = (Ok [], h) ->
  generate_trailer W K self output_path max_duration h = (Ok false, h).
Proof.
  intros Hm Hdetect.
  unfold generate_trailer, detect_if_empty, assemble, mbind, get_moments, ret.
  rewrite Hm, Hdetect, Hm. reflexivity.
Qed.

Lemma on_disk_app (l1 l2 : list event) (path : string) (present : bool) :
  on_disk (l1 ++ l2) path present = on_disk l2 path (on_disk l1 path present).
Proof.
  revert present. induction l1 as [|e l1 IH]; intros present; [reflexivity|].
  destruct e; cbn [app on_disk]; apply IH.
Qed.

(** The runs of the handler on a request that names a file: the [save]
    raises and the exception leaves the handler; or the clip cannot be
    opened; or detection raises; or detection returns the empty list it
    found and [generate_trailer] reports failure. *)
Lemma upload_video_cases (W : world) (K : Kernels) (name : string) (h : heap) :
  String.eqb name "" = false ->
  let filepath := path_join UPLOAD_FOLDER (secure_filename K name) in
  let opened := {| moments := [];
                   log := (log h ++ [FileSave filepath]) ++ [ClipOpen filepath] |} in
  (file_at W filepath = Unwritable /\
   upload_video W K {| files_video := Some name |} h = (Raise OSError, h))
  \/ (file_at W filepath = Unreadable /\
      upload_video W K {| files_video := Some name |} h
      = (Ok (Failure 500 ("Processing failed: " ++ str W OSError)),
         {| moments := moments h;
            log := log h ++ [FileSave filepath; FileRemove filepath] |}))
  \/ (exists c e,
        file_at W filepath = Video c /\
        detect_moments K (catcher_of filepath c) default_num_moments
          default_moment_duration opened = (Raise e, opened) /\
        upload_video W K {| files_video := Some name |} h
        = (Ok (Failure 500 ("Processing failed: " ++ str W e)),
           {| moments := [];
              log := log h ++ [FileSave filepath; ClipOpen filepath;
                               FileRemove filepath] |}))
  \/ (exists c,
        file_at W filepath = Video c /\
        detect_moments K (catcher_of filepath c) default_num_moments
          default_moment_duration opened = (Ok [], opened) /\
        upload_video W K {| files_video := Some name |} h
        = (Ok (Failure 500 "Failed to generate trailer"),
           {| moments := [];
              log := log h ++ [FileSave filepath; ClipOpen filepath;
                               ClipClose filepath; FileRemove filepath] |})).
Proof.
  intros Hname filepath opened.
  unfold upload_video, file_save, can_save, try_finally, try_except,
    MomentCatcher_init, open_video, remove_upload, os_path_exists, mbind,
    emit, set_moments, ret, raise, close.
  cbn [files_video moments log]. rewrite Hname. fold filepath.
  destruct (file_at W filepath) as [| |c] eqn:Hfile.
  - left. split; reflexivity.
  - right. left. split; [reflexivity|]. cbn [moments log].
    rewrite on_disk_app. cbn [on_disk]. rewrite String.eqb_refl.
    cbn [moments log]. rewrite <- ?app_assoc. reflexivity.
  - right. right. cbn [moments log]. fold opened.
    destruct (detect_moments_leaves_heap K (catcher_of filepath c)
                default_num_moments default_moment_duration opened)
      as [[e He]|Hok].
    + left. exists c, e. split; [reflexivity|]. split; [exact He|].
      rewrite He. unfold opened. cbn [moments log].
      rewrite !on_disk_app. cbn [on_disk]. rewrite String.eqb_refl.
      cbn [moments log]. rewrite <- ?app_assoc. reflexivity.
    + right. exists c. change (moments opened) with (@nil moment) in Hok.
      split; [reflexivity|]. split; [exact Hok|].
      rewrite Hok.
      rewrite (generate_trailer_nothing_stored W K (catcher_of filepath c)
                 _ default_max_duration opened eq_refl Hok).
      unfold emit, opened. cbn [moments log catcher_of video_path].
      rewrite !on_disk_app. cbn [on_disk]. rewrite String.eqb_refl.
      cbn [moments log]. rewrite <- ?app_assoc. reflexivity.
Qed.

(** C2.  When the source has an audio track and both extractors deliver
    rows, [detect_moments] raises inside the handler's [try]; the [except]
    clause answers 500 and the [finally] clause removes the upload, but
    [catcher.close()] is never reached: the run opens the clip and returns
    without closing it. *)
Theorem upload_video_leaves_clip_open :
  forall (W : world) (K : Kernels) (name : string) (c : VideoFileClip)
         (audio : AudioFileClip) (a : matrix) (h : heap),
    String.eqb name "" = false ->
    open_video W (path_join UPLOAD_FOLDER (secure_filename K name)) = Some c ->
    clip_audio c = Some audio ->
    extract_audio_features K
      (catcher_of (path_join UPLOAD_FOLDER (secure_filename K name)) c) = Ok a ->
    a <> [] ->
    clip_frames c <> [] ->
    let filepath := path_join UPLOAD_FOLDER (secure_filename K name) in
    upload_video W K {| files_video := Some name |} h
    = (Ok (Failure 500 ("Processing failed: " ++ str W ValueError)),
       {| moments := [];
          log := (log h ++ [FileSave filepath]) ++ [ClipOpen filepath]
                   ++ [FileRemove filepath] |})
    /\ ~ In (ClipClose filepath) [FileSave filepath; ClipOpen filepath;
                                    FileRemove filepath].
Proof.
  intros W K name c audio a h Hname Hopen Haudio Ha Hna Hframes filepath.
  split.
  - assert (Hfile : file_at W filepath = Video c).
    { unfold open_video in Hopen. fold filepath in Hopen.
      destruct (file_at W filepath); congruence. }
    destruct (detect_moments_raises_with_audio K (catcher_of filepath c) audio a
                default_num_moments default_moment_duration
                {| moments := [];
                   log := (log h ++ [FileSave filepath]) ++ [ClipOpen filepath] |}
                Haudio Ha Hna Hframes) as [_ Hdetect].
    destruct (upload_video_cases W K name h Hname)
      as [[Hf _]|[[Hf _]|[(c' & e & Hf & He & Hrun)|(c' & Hf & He & _)]]];
      fold filepath in Hf; rewrite Hfile in Hf; try discriminate;
      injection Hf as <-.
    + fold filepath in He, Hrun. rewrite Hdetect in He. injection He as <-.
      rewrite Hrun. rewrite <- !app_assoc. reflexivity.
    + fold filepath in He. rewrite Hdetect in He. discriminate.
  - simpl. intros [H|[H|[H|[]]]]; discriminate.
Qed.

Lemma upload_video_leaves_clip_open_witness :
  upload_video (sample_world sample_clip) sample_kernels sample_request
    empty_heap
  = (Ok (Failure 500 "Processing failed: shapes not aligned"),
     {| moments := [];
        log := [FileSave "uploads/clip.mp4"; ClipOpen "uploads/clip.mp4";
                FileRemove "uploads/clip.mp4"] |}).
Proof.
  apply (proj1 (upload_video_leaves_clip_open (sample_world sample_clip)
                  sample_kernels "clip.mp4" sample_clip sample_audio
                  [[3; 2 # 3; 0]; [3; 2 # 3; 0]; [3; 2 # 3; 0]; [3; 2 # 3; 0];
                   [3; 2 # 3; 0]; [3; 2 # 3; 0]; [3; 2 # 3; 0]]
                  empty_heap
                  eq_refl eq_refl eq_refl eq_refl
                  ltac:(discriminate) ltac:(discriminate))).
Defined.

(** ** Trailer generation *)

Lemma detect_if_empty_leaves_heap (K : Kernels) (self : MomentCatcher)
    (h : heap) :
  (exists e, detect_if_empty K self h = (Raise e, h))
  \/ detect_if_empty K self h = (Ok tt, h).
Proof.
  unfold detect_if_empty, mbind, get_moments.
  destruct (moments h) as [|m ms] eqn:Hm; [|right; reflexivity].
  destruct (detect_moments_leaves_heap K self default_num_moments
              default_moment_duration h) as [[e He]|Hok]; rewrite ?He, ?Hok.
  - left. exists e. reflexivity.
  - right. reflexivity.
Qed.

Lemma select_clips_nil_iff (max_duration : Q) (ms : list moment) :
  select_clips max_duration ms = [] <-> ms = [] \/ max_duration <= 0.
Proof.
  unfold select_clips. destruct ms as [|m rest]; simpl.
  - split; auto.
  - destruct (Qle_bool max_duration 0) eqn:Hstop.
    + apply Qle_bool_iff in Hstop. split; auto.
    + split.
      * intros Hnil.
        destruct (clips_loop_prefix max_duration rest
                    [Subclip (start_time m) (end_time m)]
                    (add_duration 0 m))
          as (k & _ & Hres & _).
        rewrite Hres in Hnil. discriminate.
      * intros [Hnil|Hle]; [discriminate|].
        apply Qle_bool_iff in Hle. congruence.
Qed.

(** ** Audio windows *)

(** C9.  Without an audio track, [extract_audio_features] returns
    [int(duration * fps)] rows, the product being the float the program
    computes, and each row is the single value zero: one column, where the
    extractor of a source with audio gives three. *)
Theorem extract_audio_features_fallback :
  forall (K : Kernels) (self : MomentCatcher),
    clip_audio (clip self) = None ->
    0 <= duration self * fps self ->
    exists a : matrix,
      extract_audio_features K self = Ok a /\
      Py.len a = Py.int (Float.mul (duration self) (fps self)) /\
      Forall (fun r => r = [0]) a /\
      Forall (fun r => List.length r = 1%nat) a.
Proof.
  intros K self Haudio Hpos.
  pose proof (int_nonneg _ (round_nonneg _ Hpos)) as Hn.
  fold (Float.mul (duration self) (fps self)) in Hn.
  exists (repeat [0] (Z.to_nat (Py.int (Float.mul (duration self) (fps self))))).
  unfold extract_audio_features, Np.zeros_column. rewrite Haudio.
  destruct (Z.ltb_spec (Py.int (Float.mul (duration self) (fps self))) 0);
    [lia|].
  repeat split.
  - unfold Py.len. rewrite repeat_length. lia.
  - apply Forall_forall. intros r Hr. apply repeat_spec in Hr. assumption.
  - apply Forall_forall. intros r Hr. apply repeat_spec in Hr. subst. reflexivity.
Qed.

Lemma extract_audio_features_fallback_witness :
  exists a : matrix,
    extract_audio_features sample_kernels (catcher_of "clip.mp4" silent_clip)
    = Ok a /\
    Py.len a = 30%Z /\
    Forall (fun r => r = [0]) a /\
    Forall (fun r => List.length r = 1%nat) a.
Proof.
  apply (extract_audio_features_fallback sample_kernels
           (catcher_of "clip.mp4" silent_clip) eq_refl).
  simpl. unfold Qle. simpl. lia.
Defined.

(** X28.  The row count of the fallback follows the float product: 3.3 s
    at 30 fps give 99 rows ([3.3 * 30] is [99.0] as a float, where the
    exact product of the two floats is below 99), and 0.29 s at 100 fps
    give 28 ([0.29 * 100] is [28.999999999999996], where the product of
    the decimals is 29). *)
Theorem fallback_rows_follow_the_float_product :
  let source (duration fps : Q) :=
    catcher_of "clip.mp4"
      {| clip_fps := fps; clip_duration := duration;
         clip_audio := None; clip_frames := [] |} in
  extract_audio_features sample_kernels (source (Float.round 3.3) 30)
  = Ok (repeat [0] 99) /\
  Py.int (Float.round 3.3 * 30) = 98%Z /\
  extract_audio_features sample_kernels (source (Float.round 0.29) 100)
  = Ok (repeat [0] 28) /\
  Py.int (0.29 * 100) = 29%Z.
Proof. vm_compute. repeat split; reflexivity. Qed.

(** C6.  On a 30 fps clip whose track is sampled at 44.1 kHz the window is
    [int(30 * 0.1) = 3] samples long, that is 1/14700 s and not 100 ms (which
    would be 4410 samples): the length is taken from the video frame rate.
    The hop is [int(3 / 2) = 1] sample, not half of three. *)
Theorem audio_window_uses_video_frame_rate :
  let self := catcher_of "clip.mp4" sample_clip in
  fps self == 30 /\
  audio_fps sample_audio == 44100 /\
  frame_length self = 3%Z /\
  hop_length self = 1%Z /\
  window_starts self (audio_array sample_audio) = Ok [0; 1; 2; 3; 4; 5; 6]%Z /\
  inject_Z (frame_length self) / audio_fps sample_audio == 1 # 14700 /\
  ~ inject_Z (frame_length self) == 0.1 * audio_fps sample_audio /\
  ~ 2 * inject_Z (hop_length self) == inject_Z (frame_length self).
Proof.
  simpl. repeat split; try reflexivity; intro H; discriminate H.
Qed.

(** ** Peak detection *)

Lemma plateau_end_spec (x : list Q) (i_max : nat) (xi : Q) :
  forall fuel a,
    (a <= i_max)%nat -> (i_max - a <= fuel)%nat ->
    let e := Scipy.plateau_end x i_max xi a fuel in
    (a <= e <= i_max)%nat /\
    (forall k, (a <= k < e)%nat -> Np.item x k == xi) /\
    ((e < i_max)%nat -> ~ Np.item x e == xi).
Proof.
  induction fuel as [|fuel IH]; intros a Ha Hfuel; simpl.
  - repeat split; try lia.
  - destruct (Nat.ltb_spec a i_max) as [Hlt|Hge]; simpl.
    + destruct (Qeq_bool (Np.item x a) xi) eqn:Heq.
      * apply Qeq_bool_iff in Heq.
        destruct (IH (S a) ltac:(lia) ltac:(lia)) as (Hrange & Hflat & Hstop).
        repeat split; try lia; auto.
        intros k Hk. destruct (Nat.eq_dec k a) as [->|Hne]; auto.
        apply Hflat. lia.
      * repeat split; try lia.
        intros _ Heq'. apply Qeq_bool_iff in Heq'. congruence.
    + repeat split; try lia.
Qed.

Lemma midpoint_bounds (i e : nat) :
  (i < e)%nat -> (i <= (i + (e - 1)) / 2 <= e - 1)%nat.
Proof.
  intros H. split.
  - apply Nat.div_le_lower_bound; lia.
  - apply Nat.Div0.div_le_upper_bound. lia.
Qed.

Lemma local_maxima_loop_spec (x : list Q) :
  forall fuel i,
    (1 <= i)%nat ->
    StronglySorted lt (Scipy.local_maxima_loop x (List.length x - 1) i fuel) /\
    Forall (fun p => (i <= p)%nat /\ Scipy.local_maximum x p)
           (Scipy.local_maxima_loop x (List.length x - 1) i fuel).
Proof.
  induction fuel as [|fuel IH]; intros i Hi; cbn [Scipy.local_maxima_loop].
  - split; constructor.
  - destruct (Nat.ltb_spec i (List.length x - 1)) as [Hlt|Hge];
      [|split; constructor].
    assert (Hnext : forall i',
               (i <= i')%nat ->
               StronglySorted lt
                 (Scipy.local_maxima_loop x (List.length x - 1) (i' + 1) fuel) /\
               Forall (fun p => (i <= p)%nat /\ Scipy.local_maximum x p)
                 (Scipy.local_maxima_loop x (List.length x - 1) (i' + 1) fuel)).
    { intros i' Hi'. destruct (IH (i' + 1)%nat ltac:(lia)) as [Hs Hf].
      split; [assumption|].
      eapply Forall_impl; [|exact Hf]. cbv beta. intros p [Hp Hmax].
      split; [lia|assumption]. }
    destruct (Qlt_le_dec (Np.item x (i - 1)) (Np.item x i)) as [Hrise|_];
      [|apply Hnext; lia].
    destruct (plateau_end_spec x (List.length x - 1) (Np.item x i)
                (List.length x) (i + 1) ltac:(lia) ltac:(lia))
      as (Hrange & Hflat & _).
    set (e := Scipy.plateau_end x (List.length x - 1) (Np.item x i) (i + 1)
                (List.length x)) in *.
    destruct (Qlt_le_dec (Np.item x e) (Np.item x i)) as [Hfall|_];
      [|apply Hnext; lia].
    pose proof (midpoint_bounds i e ltac:(lia)) as Hmid.
    set (m := ((i + (e - 1)) / 2)%nat) in *.
    destruct (IH (e + 1)%nat ltac:(lia)) as [Hs Hf].
    assert (Hplateau : forall k, (i <= k <= e - 1)%nat ->
                                 Np.item x k == Np.item x i).
    { intros k Hk. destruct (Nat.eq_dec k i) as [->|Hne]; [reflexivity|].
      apply Hflat. lia. }
    split.
    + constructor; [assumption|].
      eapply Forall_impl; [|exact Hf]. cbv beta. intros p [Hp _]. lia.
    + constructor.
      * split; [lia|]. exists i, (e - 1)%nat.
        assert (Hm : Np.item x m == Np.item x i) by (apply Hplateau; lia).
        repeat split; try lia.
        -- intros k Hk. rewrite Hm. apply Hplateau. lia.
        -- rewrite Hm. assumption.
        -- rewrite Hm. replace (e - 1 + 1)%nat with e by lia. assumption.
      * eapply Forall_impl; [|exact Hf]. cbv beta. intros p [Hp Hmax].
        split; [lia|assumption].
Qed.

Lemma local_maxima_1d_spec (x : list Q) :
  StronglySorted lt (Scipy.local_maxima_1d x) /\
  Forall (Scipy.local_maximum x) (Scipy.local_maxima_1d x).
Proof.
  unfold Scipy.local_maxima_1d.
  destruct (local_maxima_loop_spec x (List.length x) 1 ltac:(lia)) as [Hs Hf].
  split; [assumption|].
  eapply Forall_impl; [|exact Hf]. cbv beta. intros p [_ Hmax]. assumption.
Qed.

(** ** The loop bounds are large enough

    The [while] loops of scipy are embedded with a step bound; the bounds
    the model passes let every loop run until its own condition fails, so
    that a larger bound gives the same result. *)

Lemma plateau_end_fuel (x : list Q) (i_max : nat) (xi : Q) :
  forall f1 f2 a,
    (i_max - a <= f1)%nat -> (i_max - a <= f2)%nat ->
    Scipy.plateau_end x i_max xi a f1 = Scipy.plateau_end x i_max xi a f2.
Proof.
  induction f1 as [|f1 IH]; intros f2 a H1 H2.
  - destruct f2 as [|f2]; cbn [Scipy.plateau_end]; [reflexivity|].
    destruct (Nat.ltb_spec a i_max); [lia|reflexivity].
  - destruct f2 as [|f2]; cbn [Scipy.plateau_end].
    + destruct (Nat.ltb_spec a i_max); [lia|reflexivity].
    + destruct (Nat.ltb_spec a i_max); cbn [andb]; [|reflexivity].
      destruct (Qeq_bool (Np.item x a) xi); [|reflexivity].
      apply IH; lia.
Qed.

Lemma local_maxima_loop_fuel (x : list Q) :
  forall f1 f2 i,
    (List.length x - 1 - i <= f1)%nat -> (List.length x - 1 - i <= f2)%nat ->
    Scipy.local_maxima_loop x (List.length x - 1) i f1
    = Scipy.local_maxima_loop x (List.length x - 1) i f2.
Proof.
  induction f1 as [|f1 IH]; intros f2 i H1 H2.
  - destruct f2 as [|f2]; cbn [Scipy.local_maxima_loop]; [reflexivity|].
    destruct (Nat.ltb_spec i (List.length x - 1)); [lia|reflexivity].
  - destruct f2 as [|f2]; cbn [Scipy.local_maxima_loop].
    + destruct (Nat.ltb_spec i (List.length x - 1)); [lia|reflexivity].
    + destruct (Nat.ltb_spec i (List.length x - 1)) as [Hlt|]; [|reflexivity].
      destruct (plateau_end_spec x (List.length x - 1) (Np.item x i)
                  (List.length x) (i + 1) ltac:(lia) ltac:(lia))
        as (Hrange & _).
      destruct (Qlt_le_dec (Np.item x (i - 1)) (Np.item x i));
        [|apply IH; lia].
      destruct (Qlt_le_dec _ (Np.item x i)); [|apply IH; lia].
      f_equal. apply IH; lia.
Qed.

Lemma clear_right_fuel (peaks : list nat) (distance : Z) (j : nat) :
  forall f1 f2 k keep,
    (List.length peaks - k <= f1)%nat -> (List.length peaks - k <= f2)%nat ->
    Scipy.clear_right peaks distance j k f1 keep
    = Scipy.clear_right peaks distance j k f2 keep.
Proof.
  induction f1 as [|f1 IH]; intros f2 k keep H1 H2.
  - destruct f2 as [|f2]; cbn [Scipy.clear_right]; [reflexivity|].
    destruct (Nat.ltb_spec k (List.length peaks)); [lia|reflexivity].
  - destruct f2 as [|f2]; cbn [Scipy.clear_right].
    + destruct (Nat.ltb_spec k (List.length peaks)); [lia|reflexivity].
    + destruct (Nat.ltb_spec k (List.length peaks)); cbn [andb];
        [|reflexivity].
      destruct (_ <? distance)%Z; [|reflexivity].
      apply IH; lia.
Qed.

(** ** Sorting and [argsort] *)

Lemma insert_by_perm {A} (key : A -> Q) (a : A) (l : list A) :
  Permutation (a :: l) (Py.insert_by key a l).
Proof.
  induction l as [|b l IH]; simpl.
  - apply Permutation_refl.
  - destruct (Qlt_le_dec (key b) (key a)).
    + eapply perm_trans; [apply perm_swap|]. apply perm_skip. exact IH.
    + apply Permutation_refl.
Qed.

Lemma sort_by_perm {A} (key : A -> Q) (l : list A) :
  Permutation l (Py.sort_by key l).
Proof.
  induction l as [|a l IH]; simpl.
  - apply perm_nil.
  - eapply perm_trans; [apply perm_skip; exact IH|]. apply insert_by_perm.
Qed.

Lemma insert_by_sorted {A} (key : A -> Q) (a : A) (l : list A) :
  StronglySorted (fun u v => key u <= key v) l ->
  StronglySorted (fun u v => key u <= key v) (Py.insert_by key a l).
Proof.
  induction l as [|b l IH]; intros Hs; simpl.
  - constructor; constructor.
  - inversion Hs as [|? ? Hl Hb]; subst.
    destruct (Qlt_le_dec (key b) (key a)) as [Hlt|Hle].
    + constructor; [apply IH; assumption|].
      eapply Permutation_Forall; [apply insert_by_perm|].
      constructor; [apply Qlt_le_weak; assumption|assumption].
    + constructor; [assumption|].
      constructor; [assumption|].
      eapply Forall_impl; [|exact Hb]. cbv beta. intros c Hc.
      eapply Qle_trans; eassumption.
Qed.

Lemma sort_by_sorted {A} (key : A -> Q) (l : list A) :
  StronglySorted (fun u v => key u <= key v) (Py.sort_by key l).
Proof.
  induction l as [|a l IH]; simpl.
  - constructor.
  - apply insert_by_sorted. exact IH.
Qed.

Lemma map_fst_combine_seq {B} (l : list B) (start : nat) :
  map fst (combine (seq start (List.length l)) l) = seq start (List.length l).
Proof.
  revert start. induction l as [|b l IH]; intros start; simpl.
  - reflexivity.
  - f_equal. apply IH.
Qed.

Lemma argsort_perm (x : list Q) :
  Permutation (seq 0 (List.length x)) (Np.argsort x).
Proof.
  unfold Np.argsort. rewrite <- (map_fst_combine_seq x 0) at 1.
  apply Permutation_map. apply sort_by_perm.
Qed.

Lemma argsort_in (x : list Q) (i : nat) :
  In i (Np.argsort x) <-> (i < List.length x)%nat.
Proof.
  split; intros H.
  - apply (Permutation_in _ (Permutation_sym (argsort_perm x))) in H.
    apply in_seq in H. lia.
  - apply (Permutation_in _ (argsort_perm x)). apply in_seq. lia.
Qed.

Lemma slice_from_incl {A} (i : Z) (l : list A) (a : A) :
  In a (Py.slice_from i l) -> In a l.
Proof.
  unfold Py.slice_from. intros H.
  rewrite <- (firstn_skipn (Py.clamp_index (Py.len l) i) l).
  apply in_or_app. right. exact H.
Qed.

Lemma top_peaks_incl (scores : list Q) (peaks : list nat) (num_moments : Z)
    (p : nat) :
  In p (top_peaks scores peaks num_moments) -> In p peaks.
Proof.
  unfold top_peaks. intros H. apply in_map_iff in H.
  destruct H as (i & <- & Hi). apply slice_from_incl in Hi.
  apply argsort_in in Hi. rewrite length_map in Hi.
  apply nth_In. exact Hi.
Qed.

(** ** The distance rule of [find_peaks] *)

Lemma clear_length (k : nat) (keep : list bool) :
  List.length (Scipy.clear k keep) = List.length keep.
Proof.
  revert k. induction keep as [|b t IH]; intros [|k]; simpl; auto.
Qed.

Lemma nth_clear (k i : nat) (keep : list bool) :
  nth i (Scipy.clear k keep) false
  = if Nat.eqb i k then false else nth i keep false.
Proof.
  revert k i. induction keep as [|b t IH]; intros k i.
  - destruct k, i; simpl; try reflexivity; destruct (Nat.eqb i k); reflexivity.
  - destruct k as [|k], i as [|i]; simpl; try reflexivity. apply IH.
Qed.

Lemma sorted_nth_le (peaks : list nat) (a b : nat) :
  StronglySorted lt peaks ->
  (a <= b)%nat -> (b < List.length peaks)%nat ->
  (Scipy.peak_at peaks a <= Scipy.peak_at peaks b)%Z.
Proof.
  unfold Scipy.peak_at. intros Hs. revert a b.
  induction Hs as [|p l Hs IH Hp]; intros a b Hab Hb; simpl in Hb; [lia|].
  destruct a as [|a], b as [|b]; simpl; try lia.
  - assert (Hin : In (nth b l 0%nat) l) by (apply nth_In; lia).
    rewrite Forall_forall in Hp. specialize (Hp _ Hin). lia.
  - apply IH; lia.
Qed.

Lemma sorted_nth_lt (peaks : list nat) (a b : nat) :
  StronglySorted lt peaks ->
  (a < b)%nat -> (b < List.length peaks)%nat ->
  (Scipy.peak_at peaks a < Scipy.peak_at peaks b)%Z.
Proof.
  unfold Scipy.peak_at. intros Hs. revert a b.
  induction Hs as [|p l Hs IH Hp]; intros a b Hab Hb; simpl in Hb; [lia|].
  destruct a as [|a], b as [|b]; simpl; try lia.
  - assert (Hin : In (nth b l 0%nat) l) by (apply nth_In; lia).
    rewrite Forall_forall in Hp. specialize (Hp _ Hin). lia.
  - apply IH; lia.
Qed.

Section DistanceRule.

Variable peaks : list nat.
Variable distance : Z.
Hypothesis peaks_sorted : StronglySorted lt peaks.

Lemma clear_left_spec (j : nat) :
  forall k1 keep,
    (k1 <= j)%nat -> (j < List.length peaks)%nat ->
    let keep' := Scipy.clear_left peaks distance j k1 keep in
    List.length keep' = List.length keep /\
    (forall k, nth k keep' false = true -> nth k keep false = true) /\
    (forall k, (k1 <= k)%nat -> nth k keep' false = nth k keep false) /\
    (forall k, (k < k1)%nat -> (Scipy.peak_at peaks j - Scipy.peak_at peaks k < distance)%Z ->
               nth k keep' false = false).
Proof.
  induction k1 as [|k IH]; intros keep Hk Hj; cbn [Scipy.clear_left].
  - repeat split; auto. intros k Hlt; lia.
  - destruct (Z.ltb_spec (Scipy.peak_at peaks j - Scipy.peak_at peaks k)
                         distance) as [Hnear|Hfar].
    + destruct (IH (Scipy.clear k keep) ltac:(lia) Hj)
        as (Hlen & Hmono & Hkeep & Hclr).
      repeat split.
      * rewrite Hlen. apply clear_length.
      * intros i Hi. apply Hmono in Hi. rewrite nth_clear in Hi.
        destruct (Nat.eqb i k); [discriminate|assumption].
      * intros i Hi. rewrite Hkeep by lia. rewrite nth_clear.
        destruct (Nat.eqb_spec i k); [lia|reflexivity].
      * intros i Hi Hd. destruct (Nat.eq_dec i k) as [->|Hne].
        -- rewrite Hkeep by lia. rewrite nth_clear, Nat.eqb_refl. reflexivity.
        -- apply Hclr; [lia|assumption].
    + repeat split; auto.
      intros i Hi Hd. exfalso.
      pose proof (sorted_nth_le peaks i k peaks_sorted ltac:(lia) ltac:(lia)).
      lia.
Qed.

Lemma clear_right_spec (j : nat) :
  forall fuel k keep,
    (List.length peaks - k <= fuel)%nat -> (j < k)%nat ->
    let keep' := Scipy.clear_right peaks distance j k fuel keep in
    List.length keep' = List.length keep /\
    (forall i, nth i keep' false = true -> nth i keep false = true) /\
    (forall i, (i < k)%nat -> nth i keep' false = nth i keep false) /\
    (forall i, (k <= i < List.length peaks)%nat ->
               (Scipy.peak_at peaks i - Scipy.peak_at peaks j < distance)%Z -> nth i keep' false = false).
Proof.
  induction fuel as [|fuel IH]; intros k keep Hfuel Hj;
    cbn [Scipy.clear_right].
  - repeat split; auto. intros i Hi; lia.
  - destruct (Nat.ltb_spec k (List.length peaks)) as [Hin|Hout];
      cbn [andb].
    + destruct (Z.ltb_spec (Scipy.peak_at peaks k - Scipy.peak_at peaks j)
                           distance) as [Hnear|Hfar].
      * destruct (IH (S k) (Scipy.clear k keep) ltac:(lia) ltac:(lia))
          as (Hlen & Hmono & Hkeep & Hclr).
        repeat split.
        -- rewrite Hlen. apply clear_length.
        -- intros i Hi. apply Hmono in Hi. rewrite nth_clear in Hi.
           destruct (Nat.eqb i k); [discriminate|assumption].
        -- intros i Hi. rewrite Hkeep by lia. rewrite nth_clear.
           destruct (Nat.eqb_spec i k); [lia|reflexivity].
        -- intros i Hi Hd. destruct (Nat.eq_dec i k) as [->|Hne].
           ++ rewrite Hkeep by lia. rewrite nth_clear, Nat.eqb_refl.
              reflexivity.
           ++ apply Hclr; [lia|assumption].
      * repeat split; auto.
        intros i Hi Hd. exfalso.
        pose proof (sorted_nth_le peaks k i peaks_sorted ltac:(lia) ltac:(lia)).
        lia.
    + repeat split; auto. intros i Hi; lia.
Qed.

(** Visiting position [j] keeps [j], only ever clears entries, and, when [j]
    is still kept, clears every other peak closer than [distance]. *)
Lemma visit_spec (keep : list bool) (j : nat) :
  (j < List.length peaks)%nat ->
  let keep' := Scipy.visit peaks distance keep j in
  List.length keep' = List.length keep /\
  (forall i, nth i keep' false = true -> nth i keep false = true) /\
  (nth j keep false = true ->
   forall i, (i < List.length peaks)%nat -> i <> j ->
             (Z.abs (Scipy.peak_at peaks i - Scipy.peak_at peaks j) < distance)%Z -> nth i keep' false = false).
Proof.
  intros Hj. unfold Scipy.visit.
  destruct (nth j keep false) eqn:Hkj.
  - destruct (clear_left_spec j j keep (Nat.le_refl j) Hj)
      as (Hlen1 & Hmono1 & Hkeep1 & Hclr1).
    destruct (clear_right_spec j (List.length peaks) (S j)
                (Scipy.clear_left peaks distance j j keep)
                ltac:(lia) ltac:(lia))
      as (Hlen2 & Hmono2 & Hkeep2 & Hclr2).
    repeat split.
    + rewrite Hlen2. exact Hlen1.
    + intros i Hi. apply Hmono1, Hmono2. exact Hi.
    + intros _ i Hi Hne Hd.
      destruct (Nat.lt_ge_cases i j) as [Hlt|Hge].
      * rewrite Hkeep2 by lia. apply Hclr1; [assumption|]. lia.
      * apply Hclr2; [lia|]. lia.
  - repeat split; auto. intros Habs; discriminate.
Qed.

Lemma visit_all_spec (order : list nat) :
  forall (visited : nat -> Prop) (keep : list bool),
    Forall (fun j => (j < List.length peaks)%nat) order ->
    Scipy.spaced_from peaks distance visited keep ->
    let keep' := fold_left (Scipy.visit peaks distance) order keep in
    Scipy.spaced_from peaks distance (fun a => visited a \/ In a order) keep' /\
    (forall i, nth i keep' false = true -> nth i keep false = true).
Proof.
  induction order as [|j rest IH]; intros visited keep Hin Hinv;
    cbn [fold_left].
  - split; [|auto]. intros a b [Ha|[]]. apply Hinv. exact Ha.
  - inversion Hin as [|? ? Hj Hrest]; subst.
    destruct (visit_spec keep j Hj) as (_ & Hmono & Hclr).
    destruct (IH (fun a => visited a \/ a = j)
                 (Scipy.visit peaks distance keep j) Hrest) as [Hinv' Hmono'].
    + intros a b [Ha| ->] Hka Hb Hne Hkb.
      * apply Hinv; auto.
      * destruct (Z.lt_ge_cases (Z.abs (Scipy.peak_at peaks b - Scipy.peak_at peaks j)) distance) as [Hd|Hd];
          [|lia].
        rewrite (Hclr (Hmono _ Hka) b Hb Hne Hd) in Hkb. discriminate.
    + split.
      * intros a b Ha. apply Hinv'.
        destruct Ha as [Ha|[->|Ha]]; auto.
      * intros i Hi. apply Hmono, Hmono'. exact Hi.
Qed.

Lemma select_by_peak_distance_spaced (priority : list Q) :
  List.length priority = List.length peaks ->
  forall a b,
    (a < List.length peaks)%nat -> (b < List.length peaks)%nat -> a <> b ->
    nth a (Scipy.select_by_peak_distance peaks priority distance) false = true ->
    nth b (Scipy.select_by_peak_distance peaks priority distance) false = true ->
    (distance <= Z.abs (Scipy.peak_at peaks b - Scipy.peak_at peaks a))%Z.
Proof.
  intros Hlen a b Ha Hb Hne Hka Hkb.
  unfold Scipy.select_by_peak_distance in *.
  destruct (visit_all_spec (rev (Np.argsort priority)) (fun _ => False)
              (repeat true (List.length peaks))) as [Hinv _].
  - apply Forall_forall. intros j Hj. apply in_rev in Hj.
    apply argsort_in in Hj. lia.
  - intros ? ? [].
  - apply Hinv; auto. right. apply in_rev. rewrite rev_involutive.
    apply argsort_in. lia.
Qed.

End DistanceRule.

Lemma mask_in {A} (d : A) (l : list A) :
  forall (keep : list bool) (p : A),
    In p (Np.mask keep l) ->
    exists k, (k < List.length l)%nat /\ nth k l d = p
              /\ nth k keep false = true.
Proof.
  unfold Np.mask. induction l as [|q l IH]; intros keep p Hp.
  - contradiction.
  - destruct keep as [|b t]; [contradiction|].
    cbn [combine filter snd] in Hp. destruct b.
    + destruct Hp as [<-|Hp].
      * exists 0%nat. simpl. repeat split; auto. lia.
      * destruct (IH t p Hp) as (k & Hk & Hn & Hb).
        exists (S k). simpl. repeat split; auto. lia.
    + destruct (IH t p Hp) as (k & Hk & Hn & Hb).
      exists (S k). simpl. repeat split; auto. lia.
Qed.

Lemma mask_incl {A} (keep : list bool) (l : list A) (p : A) :
  In p (Np.mask keep l) -> In p l.
Proof.
  intros Hp. destruct (mask_in p l keep p Hp) as (k & Hk & <- & _).
  apply nth_In. exact Hk.
Qed.

Lemma mask_sorted (keep : list bool) (peaks : list nat) :
  StronglySorted lt peaks -> StronglySorted lt (Np.mask keep peaks).
Proof.
  intros Hs. revert keep.
  induction Hs as [|q l Hs IH Hq]; intros keep.
  - constructor.
  - destruct keep as [|b t]; [constructor|].
    unfold Np.mask in *. cbn [combine filter snd]. destruct b.
    + cbn [map fst]. constructor; [apply IH|].
      apply Forall_forall. intros p Hp.
      rewrite Forall_forall in Hq. apply Hq.
      apply (mask_incl t l p Hp).
    + apply IH.
Qed.

Lemma filter_sorted {A} (R : A -> A -> Prop) (f : A -> bool) (l : list A) :
  StronglySorted R l -> StronglySorted R (filter f l).
Proof.
  induction 1 as [|a l Hs IH Ha]; simpl.
  - constructor.
  - destruct (f a); [|assumption].
    constructor; [assumption|].
    apply Forall_forall. intros b Hb. apply filter_In in Hb.
    rewrite Forall_forall in Ha. apply Ha. tauto.
Qed.

Lemma sorted_lt_NoDup (l : list nat) : StronglySorted lt l -> NoDup l.
Proof.
  induction 1 as [|a l Hs IH Ha]; constructor; [|assumption].
  intros Hin. rewrite Forall_forall in Ha. specialize (Ha _ Hin). lia.
Qed.


(** What [find_peaks] returns when the distance is at least one: peaks in
    increasing order, each a local maximum of height at least [height], any
    two of them at least [distance] samples apart. *)
Lemma find_peaks_spec (x : list Q) (height : Q) (distance : Z) :
  (1 <= distance)%Z ->
  exists peaks,
    Scipy.find_peaks x height distance = Ok peaks /\
    StronglySorted lt peaks /\
    Forall (fun p => Scipy.local_maximum x p /\ height <= Np.item x p) peaks /\
    (forall p q, In p peaks -> In q peaks -> p <> q ->
                 (distance <= Z.abs (Z.of_nat p - Z.of_nat q))%Z).
Proof.
  intros Hd. unfold Scipy.find_peaks.
  destruct (Z.ltb_spec distance 1) as [Hlt|_]; [lia|].
  destruct (local_maxima_1d_spec x) as [Hsorted Hmax].
  set (high := Scipy.select_by_height x height (Scipy.local_maxima_1d x)).
  assert (Hhigh_sorted : StronglySorted lt high)
    by (apply filter_sorted; assumption).
  eexists. split; [reflexivity|]. repeat split.
  - apply mask_sorted. assumption.
  - apply Forall_forall. intros p Hp. apply mask_incl in Hp.
    apply filter_In in Hp. destruct Hp as [Hin Hh].
    rewrite Forall_forall in Hmax. split; [apply Hmax; assumption|].
    apply Qle_bool_iff. exact Hh.
  - intros p q Hp Hq Hne.
    destruct (mask_in 0%nat high _ p Hp) as (a & Ha & Hpa & Hka).
    destruct (mask_in 0%nat high _ q Hq) as (b & Hb & Hqb & Hkb).
    assert (Hab : b <> a) by (intros ->; congruence).
    pose proof (select_by_peak_distance_spaced high distance Hhigh_sorted
                  (map (Np.item x) high) (length_map _ _)
                  b a Hb Ha Hab Hkb Hka) as Hsp.
    unfold Scipy.peak_at in Hsp. rewrite Hpa, Hqb in Hsp. exact Hsp.
Qed.



(** The height condition of [find_peaks] is inclusive: on the scores
    [0, 1, 0, 1, 0, 1, 0] the threshold is 1 and the peaks 1, 3 and 5, of
    height 1, are kept. *)
Lemma peak_at_threshold_is_kept :
  peaks_of_scores 1 [0; 1; 0; 1; 0; 1; 0] = Ok [1; 3; 5]%nat /\
  In 1%nat (top_peaks [0; 1; 0; 1; 0; 1; 0] [1; 3; 5]%nat 10) /\
  Np.percentile [0; 1; 0; 1; 0; 1; 0] 70 == 1 /\
  ~ Np.percentile [0; 1; 0; 1; 0; 1; 0] 70 < Np.item [0; 1; 0; 1; 0; 1; 0] 1.
Proof.
  repeat split.
  - vm_compute. auto.
  - vm_compute. intros H. discriminate H.
Qed.

(** ** From peaks to moments *)

Lemma moment_of_peak_clamped (fps duration moment_duration : Q)
    (scores : list Q) (p : nat) :
  0 <= start_time (moment_of_peak fps duration moment_duration scores p) /\
  end_time (moment_of_peak fps duration moment_duration scores p) <= duration.
Proof.
  unfold moment_of_peak, Py.max, Py.min. cbn [start_time end_time].
  split.
  - destruct (Qlt_le_dec 0 _); lra.
  - destruct (Qlt_le_dec _ duration); lra.
Qed.

Lemma local_maximum_in_range (x : list Q) (p : nat) :
  Scipy.local_maximum x p -> (p < List.length x)%nat.
Proof. intros (l & r & Hl & Hr & Hlen & _). lia. Qed.


(** X29.  The bounds of a moment are floats.  Around the peak at 1 s of a
    1 fps source, a moment duration of [0.2] gives the moment from [0.9] to
    [1.1], longer than [0.2]; a moment duration of [1e-16] gives a moment
    that starts and ends at [1.0]; so does a moment duration of zero. *)
Theorem moment_bounds_are_rounded :
  let around (moment_duration : Q) := moment_of_peak 1 7 moment_duration [] 1 in
  start_time (around (Float.round 0.2)) = Float.round 0.9 /\
  end_time (around (Float.round 0.2)) = Float.round 1.1 /\
  Float.round 0.2
  < end_time (around (Float.round 0.2)) - start_time (around (Float.round 0.2)) /\
  0 < Float.round (1 # 10 ^ 16) /\
  start_time (around (Float.round (1 # 10 ^ 16))) = 1 /\
  end_time (around (Float.round (1 # 10 ^ 16))) = 1 /\
  start_time (around 0) = 1 /\
  end_time (around 0) = 1.
Proof. vm_compute. repeat split; reflexivity. Qed.

(** ** The number of moments *)

Lemma moments_of_peaks_length (fps duration moment_duration : Q)
    (scores : list Q) (selected : list nat) :
  List.length (moments_of_peaks fps duration moment_duration scores selected)
  = List.length selected.
Proof.
  unfold moments_of_peaks.
  rewrite <- (Permutation_length (sort_by_perm _ _)). apply length_map.
Qed.

(** For a positive request the selection keeps [min(K, len(peaks))] peaks;
    for [K = 0] the slice [[-0:]] keeps them all. *)
Lemma top_peaks_length (scores : list Q) (peaks : list nat) (num_moments : Z) :
  ((0 < num_moments)%Z ->
   List.length (top_peaks scores peaks num_moments)
   = Nat.min (List.length peaks) (Z.to_nat num_moments)) /\
  (num_moments = 0%Z ->
   List.length (top_peaks scores peaks num_moments) = List.length peaks).
Proof.
  assert (Hn : List.length (Np.argsort (map (Np.item scores) peaks))
               = List.length peaks).
  { rewrite <- (Permutation_length (argsort_perm _)), length_seq.
    apply length_map. }
  unfold top_peaks, Py.slice_from, Py.clamp_index, Py.len.
  rewrite length_map, length_skipn, Hn.
  split; intros HK.
  - destruct (Z.ltb_spec (- num_moments) 0); lia.
  - subst. simpl. lia.
Qed.

(** Lines 153-167 as a function of the score sequence: asked for zero
    moments on the scores [0, 1, 0] (one peak), the selection keeps the
    peak, since [np.argsort(peak_scores)[-0:]] is the whole array. *)
Lemma zero_request_keeps_every_peak :
  exists ms : list moment,
    moments_from_scores 1 7 0 3 [0; 1; 0] = Ok (Some ms) /\
    List.length ms = 1%nat /\
    ~ (Py.len ms <= 0)%Z.
Proof.
  eexists. split; [vm_compute; reflexivity|].
  split; [reflexivity|]. vm_compute. intros H. apply H. reflexivity.
Qed.

(** ** Every outcome of the upload handler *)

(** [detect_moments] skips the scoring block when either feature sequence
    is empty. *)
Lemma detect_moments_skips (K : Kernels) (self : MomentCatcher)
    (a : matrix) (num_moments : Z) (moment_duration : Q) (h : heap) :
  extract_audio_features K self = Ok a ->
  a = [] \/ clip_frames (clip self) = [] ->
  detect_moments K self num_moments moment_duration h = (Ok (moments h), h).
Proof.
  intros Ha Hempty. unfold detect_moments, mbind, lift. rewrite Ha.
  destruct Hempty as [->|Hframes].
  - reflexivity.
  - unfold extract_visual_features. rewrite Hframes. cbn [visual_loop].
    destruct a; reflexivity.
Qed.

(** X1.  [detect_moments] returns normally exactly when the audio extractor
    succeeds and one of the two feature sequences is empty; whether it
    returns or raises, the instance and the event log are left as they
    were, and what it returns is the moment list already stored. *)
Theorem detect_moments_returns_iff_skipped :
  forall (K : Kernels) (self : MomentCatcher) (num_moments : Z)
         (moment_duration : Q) (h : heap),
    snd (detect_moments K self num_moments moment_duration h) = h /\
    (forall ms,
        fst (detect_moments K self num_moments moment_duration h) = Ok ms ->
        ms = moments h) /\
    ((exists ms,
         fst (detect_moments K self num_moments moment_duration h) = Ok ms)
     <-> (exists a,
            extract_audio_features K self = Ok a /\
            (a = [] \/ clip_frames (clip self) = []))).
Proof.
  intros K self num_moments moment_duration h.
  destruct (detect_moments_leaves_heap K self num_moments moment_duration h)
    as [[e He]|Hok].
  - rewrite He. cbn [fst snd]. split; [reflexivity|].
    split; [intros ms Hms; discriminate|].
    split; [intros [ms Hms]; discriminate|].
    intros (a & Ha & Hempty).
    rewrite (detect_moments_skips K self a num_moments moment_duration h
               Ha Hempty) in He. discriminate.
  - rewrite Hok. cbn [fst snd]. split; [reflexivity|].
    split; [intros ms Hms; congruence|].
    split; [|intros _; eexists; reflexivity].
    intros _.
    destruct (extract_audio_features K self) as [a|e] eqn:Ha.
    + exists a. split; [reflexivity|].
      destruct a as [|ra a']; [left; reflexivity|].
      destruct (clip_frames (clip self)) as [|f fs] eqn:Hframes;
        [right; reflexivity|].
      exfalso.
      assert (Hnv : extract_visual_features K self <> []).
      { apply visual_features_nonempty. rewrite Hframes. discriminate. }
      destruct (visual_features_shape K self) as [Hwv _].
      unfold detect_moments, mbind, lift in Hok. rewrite Ha in Hok.
      destruct (extract_visual_features K self) as [|rv v']; [congruence|].
      cbn [List.length Nat.ltb Nat.leb andb] in Hok.
      destruct (clip_audio (clip self)) as [audio|] eqn:Haudio.
      * rewrite (excitement_scores_shape_error K 3 4) in Hok;
          auto; try discriminate.
        apply (audio_features_width K self audio); assumption.
      * rewrite (excitement_scores_shape_error K 1 4) in Hok;
          auto; try discriminate.
        apply (fallback_features_width K self); assumption.
    + unfold detect_moments, mbind, lift in Hok. rewrite Ha in Hok.
      discriminate.
Qed.

(** X2.  A source without audio track fails as well: with at least one
    fallback row and one decoded frame the stacked matrix has five columns
    (one audio, four visual) against six weights, and [detect_moments]
    raises [ValueError]. *)
Theorem detect_moments_raises_without_audio :
  forall (K : Kernels) (self : MomentCatcher) (num_moments : Z)
         (moment_duration : Q) (h : heap),
    clip_audio (clip self) = None ->
    (1 <= Py.int (duration self * fps self))%Z ->
    clip_frames (clip self) <> [] ->
    detect_moments K self num_moments moment_duration h
    = (Raise ValueError, h).
Proof.
  intros K self num_moments moment_duration h Haudio Hrows Hframes.
  pose proof (visual_features_nonempty K self Hframes) as Hnv.
  destruct (visual_features_shape K self) as [Hwv _].
  assert (Hfloat : (1 <= Py.int (Float.mul (duration self) (fps self)))%Z).
  { apply int_ge_1, round_ge_1, int_ge_1. exact Hrows. }
  assert (Ha : extract_audio_features K self
               = Ok (repeat [0]
                       (Z.to_nat
                          (Py.int (Float.mul (duration self) (fps self)))))).
  { unfold extract_audio_features, Np.zeros_column. rewrite Haudio.
    destruct (Z.ltb_spec (Py.int (Float.mul (duration self) (fps self))) 0);
      [lia|].
    reflexivity. }
  unfold detect_moments, mbind, lift. rewrite Ha.
  destruct (Z.to_nat (Py.int (Float.mul (duration self) (fps self))))
    as [|n] eqn:Hn; [lia|].
  cbn [repeat].
  destruct (extract_visual_features K self) as [|rv v'] eqn:Ev; [congruence|].
  cbn [List.length Nat.ltb Nat.leb andb].
  rewrite (excitement_scores_shape_error K 1 4); auto; try discriminate.
  constructor; [reflexivity|].
  apply Forall_forall. intros r Hr. apply repeat_spec in Hr. subst. reflexivity.
Qed.

Lemma detect_moments_raises_without_audio_witness :
  detect_moments sample_kernels
    (catcher_of "clip.mp4"
       {| clip_fps := 30; clip_duration := 1; clip_audio := None;
          clip_frames := [[]] |}) 10 3 empty_heap
  = (Raise ValueError, empty_heap).
Proof.
  apply (detect_moments_raises_without_audio sample_kernels
           (catcher_of "clip.mp4"
              {| clip_fps := 30; clip_duration := 1; clip_audio := None;
                 clip_frames := [[]] |}) 10 3 empty_heap eq_refl).
  - vm_compute. discriminate.
  - discriminate.
Defined.

(** X3.  The handler never answers with success and never renders a
    trailer.  Whatever the request and the uploaded file, either the
    [save] of line 226 raises, the exception leaves the handler and
    nothing has happened, or the response is an error (400 or 500) and the
    run adds no [write_videofile] call. *)
Theorem upload_video_never_succeeds :
  forall (W : world) (K : Kernels) (req : request) (h : heap),
    (exists name : string,
        files_video req = Some name /\
        String.eqb name "" = false /\
        can_save W (path_join UPLOAD_FOLDER (secure_filename K name)) = false /\
        upload_video W K req h = (Raise OSError, h))
    \/ (exists (status : Z) (error : string) (h' : heap),
          upload_video W K req h = (Ok (Failure status error), h') /\
          (status = 400%Z \/ status = 500%Z) /\
          (forall path clips,
              In (WriteVideofile path clips) (log h') ->
              In (WriteVideofile path clips) (log h))).
Proof.
  intros W K [[name|]] h.
  - destruct (String.eqb name "") eqn:Hname.
    + right. exists 400%Z, "No file selected"%string, h.
      unfold upload_video. cbn [files_video]. rewrite Hname.
      repeat split; auto.
    + destruct (upload_video_cases W K name h Hname)
        as [[Hfile Hrun]|[[_ Hrun]|[(c & e & _ & _ & Hrun)|(c & _ & _ & Hrun)]]].
      * left. exists name. split; [reflexivity|]. split; [exact Hname|].
        split; [|exact Hrun]. unfold can_save. rewrite Hfile. reflexivity.
      * right. rewrite Hrun. do 3 eexists. split; [reflexivity|].
        split; [right; reflexivity|].
        intros path clips Hin. cbn [log] in Hin.
        apply in_app_or in Hin. destruct Hin as [Hin|Hin]; auto.
        cbn [In] in Hin.
        repeat (destruct Hin as [Hin|Hin]; try discriminate). contradiction.
      * right. rewrite Hrun. do 3 eexists. split; [reflexivity|].
        split; [right; reflexivity|].
        intros path clips Hin. cbn [log] in Hin.
        apply in_app_or in Hin. destruct Hin as [Hin|Hin]; auto.
        cbn [In] in Hin.
        repeat (destruct Hin as [Hin|Hin]; try discriminate). contradiction.
      * right. rewrite Hrun. do 3 eexists. split; [reflexivity|].
        split; [right; reflexivity|].
        intros path clips Hin. cbn [log] in Hin.
        apply in_app_or in Hin. destruct Hin as [Hin|Hin]; auto.
        cbn [In] in Hin.
        repeat (destruct Hin as [Hin|Hin]; try discriminate). contradiction.
  - right. exists 400%Z, "No video file provided"%string, h.
    repeat split; auto.
Qed.

(** X4.  On a request that names a file, the upload is removed whenever it
    was saved.  If the [save] succeeds the handler returns a response (no
    exception escapes it), the file is found by the test of line 254 and
    the event that closes the run is its removal.  If the [save] raises,
    the exception leaves the handler, with nothing saved and nothing to
    remove. *)
Theorem upload_video_removes_upload :
  forall (W : world) (K : Kernels) (name : string) (h : heap),
    String.eqb name "" = false ->
    let filepath := path_join UPLOAD_FOLDER (secure_filename K name) in
    (can_save W filepath = true ->
     exists (r : response) (h' : heap) (events : list event),
       upload_video W K {| files_video := Some name |} h = (Ok r, h') /\
       log h' = log h ++ FileSave filepath :: events ++ [FileRemove filepath] /\
       ~ In (FileRemove filepath) events /\
       on_disk (log h ++ FileSave filepath :: events) filepath false = true /\
       on_disk (log h') filepath false = false)
    /\ (can_save W filepath = false ->
        upload_video W K {| files_video := Some name |} h = (Raise OSError, h)).
Proof.
  intros W K name h Hname filepath.
  assert (Hdisk : forall events present,
             on_disk (FileSave filepath :: events) filepath present
             = on_disk events filepath true).
  { intros events present. cbn [on_disk]. rewrite String.eqb_refl. reflexivity. }
  unfold can_save.
  destruct (upload_video_cases W K name h Hname)
    as [[Hfile Hrun]|[[Hfile Hrun]|[(c & e & Hfile & _ & Hrun)
                                   |(c & Hfile & _ & Hrun)]]];
    fold filepath in Hfile, Hrun; rewrite Hfile;
    (split; [intros Hsave|intros Hsave]); try discriminate.
  - exact Hrun.
  - rewrite Hrun. exists (Failure 500 ("Processing failed: " ++ str W OSError)).
    eexists. exists []. cbn [log app].
    split; [reflexivity|]. split; [reflexivity|]. split; [intros []|].
    cbn [log app]. rewrite !on_disk_app, !Hdisk. cbn [on_disk].
    rewrite String.eqb_refl. split; reflexivity.
  - rewrite Hrun. exists (Failure 500 ("Processing failed: " ++ str W e)).
    eexists. exists [ClipOpen filepath]. cbn [log app].
    split; [reflexivity|]. split; [reflexivity|].
    split; [intros [H|[]]; discriminate|].
    cbn [log app]. rewrite !on_disk_app, !Hdisk. cbn [on_disk].
    rewrite String.eqb_refl. split; reflexivity.
  - rewrite Hrun. exists (Failure 500 "Failed to generate trailer").
    eexists. exists [ClipOpen filepath; ClipClose filepath]. cbn [log app].
    split; [reflexivity|]. split; [reflexivity|].
    split; [intros [H|[H|[]]]; discriminate|].
    cbn [log app]. rewrite !on_disk_app, !Hdisk. cbn [on_disk].
    rewrite String.eqb_refl. split; reflexivity.
Qed.

Lemma upload_video_removes_upload_witness :
  (exists (r : response) (h' : heap) (events : list event),
      upload_video (sample_world silent_clip) sample_kernels sample_request
        empty_heap = (Ok r, h') /\
      log h' = [] ++ FileSave "uploads/clip.mp4"
                  :: events ++ [FileRemove "uploads/clip.mp4"] /\
      ~ In (FileRemove "uploads/clip.mp4") events /\
      on_disk ([] ++ FileSave "uploads/clip.mp4" :: events)
        "uploads/clip.mp4" false = true /\
      on_disk (log h') "uploads/clip.mp4" false = false)
  /\ upload_video
       {| file_at := fun _ => Unwritable; can_write := fun _ => true;
          str := fun _ => "is a directory"%string |}
       sample_kernels {| files_video := Some ".."%string |} empty_heap
     = (Raise OSError, empty_heap).
Proof.
  split.
  - apply (proj1 (upload_video_removes_upload (sample_world silent_clip)
                    sample_kernels "clip.mp4" empty_heap eq_refl)).
    reflexivity.
  - apply (proj2 (upload_video_removes_upload
                    {| file_at := fun _ => Unwritable;
                       can_write := fun _ => true;
                       str := fun _ => "is a directory"%string |}
                    sample_kernels ".." empty_heap eq_refl)).
    reflexivity.
Defined.

(** X5.  When the uploaded file is saved but cannot be opened as a video,
    the handler answers 500 with the text of the exception, removes the
    upload, and opens no clip. *)
Theorem upload_video_unreadable_source :
  forall (W : world) (K : Kernels) (name : string) (h : heap),
    String.eqb name "" = false ->
    file_at W (path_join UPLOAD_FOLDER (secure_filename K name)) = Unreadable ->
    upload_video W K {| files_video := Some name |} h
    = (Ok (Failure 500 ("Processing failed: " ++ str W OSError)),
       {| moments := moments h;
          log := log h
                 ++ [FileSave (path_join UPLOAD_FOLDER (secure_filename K name));
                     FileRemove
                       (path_join UPLOAD_FOLDER (secure_filename K name))] |}).
Proof.
  intros W K name h Hname Hfile.
  destruct (upload_video_cases W K name h Hname)
    as [[Hf _]|[[_ Hrun]|[(c & e & Hf & _)|(c & Hf & _)]]];
    [|exact Hrun| |]; rewrite Hfile in Hf; discriminate.
Qed.

Lemma upload_video_unreadable_source_witness :
  upload_video
    {| file_at := fun _ => Unreadable; can_write := fun _ => true;
       str := fun _ => "could not be read"%string |}
    sample_kernels sample_request empty_heap
  = (Ok (Failure 500 "Processing failed: could not be read"),
     {| moments := [];
        log := [FileSave "uploads/clip.mp4"; FileRemove "uploads/clip.mp4"] |}).
Proof.
  apply (upload_video_unreadable_source
           {| file_at := fun _ => Unreadable; can_write := fun _ => true;
              str := fun _ => "could not be read"%string |}
           sample_kernels "clip.mp4" empty_heap eq_refl eq_refl).
Defined.

(** X6.  When the audio extractor succeeds and one of the feature sequences
    is empty (a source without decodable frames, or a track too short for a
    single window), the handler closes the clip before it removes the
    upload and answers 500 "Failed to generate trailer". *)
Theorem upload_video_closes_when_nothing_detected :
  forall (W : world) (K : Kernels) (name : string) (c : VideoFileClip)
         (a : matrix) (h : heap),
    String.eqb name "" = false ->
    open_video W (path_join UPLOAD_FOLDER (secure_filename K name)) = Some c ->
    extract_audio_features K
      (catcher_of (path_join UPLOAD_FOLDER (secure_filename K name)) c) = Ok a ->
    a = [] \/ clip_frames c = [] ->
    let filepath := path_join UPLOAD_FOLDER (secure_filename K name) in
    upload_video W K {| files_video := Some name |} h
    = (Ok (Failure 500 "Failed to generate trailer"),
       {| moments := [];
          log := log h ++ [FileSave filepath; ClipOpen filepath;
                           ClipClose filepath; FileRemove filepath] |}).
Proof.
  intros W K name c a h Hname Hopen Ha Hempty filepath.
  assert (Hfile : file_at W filepath = Video c).
  { unfold open_video in Hopen. fold filepath in Hopen.
    destruct (file_at W filepath); congruence. }
  destruct (upload_video_cases W K name h Hname)
    as [[Hf _]|[[Hf _]|[(c' & e & Hf & He & _)|(c' & Hf & _ & Hrun)]]];
    fold filepath in Hf; rewrite Hfile in Hf; try discriminate.
  - injection Hf as <-.
    rewrite (detect_moments_skips K (catcher_of filepath c) a _ _ _ Ha Hempty)
      in He. discriminate.
  - exact Hrun.
Qed.

Lemma upload_video_closes_when_nothing_detected_witness :
  upload_video (sample_world silent_clip) sample_kernels sample_request
    empty_heap
  = (Ok (Failure 500 "Failed to generate trailer"),
     {| moments := [];
        log := [FileSave "uploads/clip.mp4"; ClipOpen "uploads/clip.mp4";
                ClipClose "uploads/clip.mp4"; FileRemove "uploads/clip.mp4"] |}).
Proof.
  apply (upload_video_closes_when_nothing_detected (sample_world silent_clip)
           sample_kernels "clip.mp4" silent_clip
           (repeat [0] 30) empty_heap eq_refl eq_refl eq_refl).
  right. reflexivity.
Defined.

(** ** Rendering the trailer *)

Lemma select_clips_head (max_duration : Q) (m : moment) (rest : list moment) :
  0 < max_duration ->
  exists tail, select_clips max_duration (m :: rest) = clip_of m :: tail.
Proof.
  intros Hmax. unfold select_clips. cbn [clips_loop app].
  destruct (Qle_bool max_duration 0) eqn:Hstop.
  - apply Qle_bool_iff in Hstop. lra.
  - destruct (clips_loop_prefix max_duration rest
                [Subclip (start_time m) (end_time m)]
                (add_duration 0 m)) as (k & _ & Hres & _).
    rewrite Hres. eexists. reflexivity.
Qed.

(** X7.  On an instance that holds moments, with a positive budget and an
    output path that can be written, [generate_trailer] returns [True]
    without running detection: it renders the admitted clips once, closes
    the trailer, then closes every admitted clip once, in order, and leaves
    the stored moments as they are. *)
Theorem generate_trailer_renders_stored_moments :
  forall (W : world) (K : Kernels) (self : MomentCatcher)
         (output_path : string) (max_duration : Q) (h : heap),
    moments h <> [] ->
    0 < max_duration ->
    can_write W output_path = true ->
    select_clips max_duration (moments h) <> [] /\
    generate_trailer W K self output_path max_duration h
    = (Ok true,
       {| moments := moments h;
          log := log h
                 ++ [WriteVideofile output_path
                       (select_clips max_duration (moments h));
                     TrailerClose]
                 ++ map SubclipClose (select_clips max_duration (moments h)) |}).
Proof.
  intros W K self output_path max_duration h Hm Hmax Hwrite.
  destruct (moments h) as [|m rest] eqn:Hms; [congruence|].
  destruct (select_clips_head max_duration m rest Hmax) as [tail Hclips].
  split; [rewrite Hclips; discriminate|].
  unfold generate_trailer, detect_if_empty. unfold mbind at 1.
  unfold mbind at 1. cbn [get_moments]. rewrite Hms. cbn [ret].
  unfold assemble. unfold mbind at 1. cbn [get_moments]. rewrite Hms.
  rewrite Hclips. unfold write_videofile. rewrite Hwrite.
  unfold mbind at 1. unfold emit at 1.
  unfold mbind at 1. unfold emit at 1.
  unfold mbind at 1. rewrite for_each_emit. cbn [ret moments log].
  rewrite Hms. rewrite <- !app_assoc. reflexivity.
Qed.

Lemma generate_trailer_renders_stored_moments_witness :
  generate_trailer (sample_world sample_clip) sample_kernels
    (catcher_of "clip.mp4" sample_clip) "outputs/trailer_clip.mp4" 15
    {| moments := [Moment 0 10 1; Moment 20 30 2; Moment 40 50 3];
       log := [] |}
  = (Ok true,
     {| moments := [Moment 0 10 1; Moment 20 30 2; Moment 40 50 3];
        log := [WriteVideofile "outputs/trailer_clip.mp4"
                  [Subclip 0 10; Subclip 20 30];
                TrailerClose;
                SubclipClose (Subclip 0 10); SubclipClose (Subclip 20 30)] |}).
Proof.
  apply (proj2 (generate_trailer_renders_stored_moments
                  (sample_world sample_clip) sample_kernels
                  (catcher_of "clip.mp4" sample_clip)
                  "outputs/trailer_clip.mp4" 15
                  {| moments := [Moment 0 10 1; Moment 20 30 2; Moment 40 50 3];
                     log := [] |}
                  ltac:(discriminate) eq_refl eq_refl)).
Defined.

(** X8.  If rendering fails, [generate_trailer] raises and nothing after
    [write_videofile] runs: neither the trailer nor any of the clips that
    were cut is closed. *)
Theorem generate_trailer_render_failure :
  forall (W : world) (K : Kernels) (self : MomentCatcher)
         (output_path : string) (max_duration : Q) (h : heap),
    moments h <> [] ->
    0 < max_duration ->
    can_write W output_path = false ->
    generate_trailer W K self output_path max_duration h = (Raise OSError, h).
Proof.
  intros W K self output_path max_duration h Hm Hmax Hwrite.
  destruct (moments h) as [|m rest] eqn:Hms; [congruence|].
  destruct (select_clips_head max_duration m rest Hmax) as [tail Hclips].
  unfold generate_trailer, detect_if_empty. unfold mbind at 1.
  unfold mbind at 1. cbn [get_moments]. rewrite Hms. cbn [ret].
  unfold assemble. unfold mbind at 1. cbn [get_moments]. rewrite Hms.
  rewrite Hclips. unfold write_videofile. rewrite Hwrite.
  unfold mbind at 1. reflexivity.
Qed.

Lemma generate_trailer_render_failure_witness :
  generate_trailer
    {| file_at := fun _ => Unreadable; can_write := fun _ => false;
       str := fun _ => "could not be written"%string |}
    sample_kernels (catcher_of "clip.mp4" sample_clip)
    "outputs/trailer_clip.mp4" 30
    {| moments := [Moment 0 3 1]; log := [] |}
  = (Raise OSError, {| moments := [Moment 0 3 1]; log := [] |}).
Proof.
  apply (generate_trailer_render_failure
           {| file_at := fun _ => Unreadable; can_write := fun _ => false;
              str := fun _ => "could not be written"%string |}
           sample_kernels (catcher_of "clip.mp4" sample_clip)
           "outputs/trailer_clip.mp4" 30
           {| moments := [Moment 0 3 1]; log := [] |}
           ltac:(discriminate) eq_refl eq_refl).
Defined.

Lemma clips_loop_budget_monotone (max1 max2 : Q) (ms : list moment) :
  max1 <= max2 ->
  forall clips total,
  exists extra,
    clips_loop max2 ms clips total = clips_loop max1 ms clips total ++ extra.
Proof.
  intros Hle. induction ms as [|m rest IH]; intros clips total.
  - exists []. cbn. rewrite app_nil_r. reflexivity.
  - cbn [clips_loop].
    destruct (Qle_bool max1 total) eqn:H1.
    + destruct (clips_loop_prefix max2 (m :: rest) clips total)
        as (k & _ & Hres & _).
      cbn [clips_loop] in Hres. rewrite Hres. eexists. reflexivity.
    + destruct (Qle_bool max2 total) eqn:H2.
      * apply Qle_bool_iff in H2.
        assert (H1' : Qle_bool max1 total = true)
          by (apply Qle_bool_iff; lra).
        congruence.
      * apply IH.
Qed.

(** X9.  Raising the budget never drops a clip: the clips admitted under a
    budget are a prefix of the clips admitted under any larger budget. *)
Theorem select_clips_budget_monotone :
  forall (max1 max2 : Q) (ms : list moment),
    max1 <= max2 ->
    exists extra,
      select_clips max2 ms = select_clips max1 ms ++ extra.
Proof.
  intros max1 max2 ms Hle. unfold select_clips.
  apply clips_loop_budget_monotone. exact Hle.
Qed.

Lemma select_clips_budget_monotone_witness :
  exists extra,
    select_clips 25 [Moment 0 10 1; Moment 20 30 2; Moment 40 50 3]
    = select_clips 15 [Moment 0 10 1; Moment 20 30 2; Moment 40 50 3] ++ extra.
Proof.
  apply (select_clips_budget_monotone 15 25).
  vm_compute. discriminate.
Defined.

(** X10.  No clip is admitted exactly when there is no stored moment or the
    budget is not positive; with a positive budget the first stored moment
    is always admitted with its own bounds, however long it is. *)
Theorem first_moment_always_admitted :
  forall (max_duration : Q) (ms : list moment),
    (select_clips max_duration ms = [] <-> ms = [] \/ max_duration <= 0) /\
    (0 < max_duration ->
     hd_error (select_clips max_duration ms) = hd_error (map clip_of ms)).
Proof.
  intros max_duration ms. split; [apply select_clips_nil_iff|].
  intros Hmax. destruct ms as [|m rest]; [reflexivity|].
  destruct (select_clips_head max_duration m rest Hmax) as [tail ->].
  reflexivity.
Qed.

Lemma first_moment_always_admitted_witness :
  hd_error (select_clips 5 [Moment 0 60 1; Moment 70 80 2])
  = hd_error (map clip_of [Moment 0 60 1; Moment 70 80 2]).
Proof.
  apply (proj2 (first_moment_always_admitted 5
                  [Moment 0 60 1; Moment 70 80 2])).
  reflexivity.
Defined.

(** ** What the selected moments are *)

Lemma combine_seq_nth (x : list Q) :
  forall (start i : nat) (v : Q),
    In (i, v) (combine (seq start (List.length x)) x) ->
    (start <= i)%nat /\ v = nth (i - start) x 0.
Proof.
  induction x as [|a x IH]; intros start i v Hin; cbn in Hin.
  - contradiction.
  - destruct Hin as [Heq|Hin].
    + injection Heq as <- <-. rewrite Nat.sub_diag. split; [lia|reflexivity].
    + destruct (IH (S start) i v Hin) as [Hle ->].
      split; [lia|].
      replace (i - start)%nat with (S (i - S start)) by lia. reflexivity.
Qed.

Lemma sorted_split_le {A} (key : A -> Q) (l : list A) (n : nat) :
  StronglySorted (fun u v => key u <= key v) l ->
  forall a b, In a (firstn n l) -> In b (skipn n l) -> key a <= key b.
Proof.
  intros Hs. revert n. induction Hs as [|c l Hs IH Hc]; intros n a b Ha Hb.
  - rewrite firstn_nil in Ha. contradiction.
  - destruct n as [|n]; [contradiction|].
    cbn [firstn skipn] in Ha, Hb. destruct Ha as [<-|Ha].
    + rewrite Forall_forall in Hc. apply Hc.
      rewrite <- (firstn_skipn n l). apply in_or_app. right. exact Hb.
    + apply (IH n); assumption.
Qed.

(** X11.  The selection keeps the best-scored peaks: no peak that is left
    out scores higher than a peak that is selected. *)
Theorem top_peaks_are_best_scored :
  forall (scores : list Q) (peaks : list nat) (num_moments : Z) (p q : nat),
    In p (top_peaks scores peaks num_moments) ->
    In q peaks ->
    ~ In q (top_peaks scores peaks num_moments) ->
    Np.item scores q <= Np.item scores p.
Proof.
  intros scores peaks num_moments p q Hp Hq Hnq.
  unfold top_peaks, Py.slice_from, Np.argsort in *.
  set (peak_scores := map (Np.item scores) peaks) in *.
  set (l := Py.sort_by snd
              (combine (seq 0 (List.length peak_scores)) peak_scores)) in *.
  set (n := Py.clamp_index (Py.len (map fst l)) (- num_moments)) in *.
  assert (Hsorted : StronglySorted (fun u v => snd u <= snd v) l)
    by apply sort_by_sorted.
  assert (Hval : forall i v, In (i, v) l ->
                             v = Np.item scores (nth i peaks 0%nat)
                             /\ (i < List.length peaks)%nat).
  { intros i v Hin.
    apply (Permutation_in _ (Permutation_sym (sort_by_perm snd _))) in Hin.
    pose proof (in_combine_l _ _ _ _ Hin) as Hi. apply in_seq in Hi.
    apply combine_seq_nth in Hin. destruct Hin as [_ ->].
    unfold peak_scores in *. rewrite length_map in Hi.
    rewrite Nat.sub_0_r. split; [|lia].
    rewrite (nth_indep _ 0 (Np.item scores 0%nat))
      by (rewrite length_map; lia).
    rewrite map_nth. reflexivity. }
  rewrite skipn_map in Hp, Hnq.
  apply in_map_iff in Hp. destruct Hp as (i & <- & Hi).
  apply in_map_iff in Hi. destruct Hi as ([i' v] & Hfst & Hi).
  cbn [fst] in Hfst. subst i'.
  destruct (In_nth peaks q 0%nat Hq) as (j & Hj & Hjq).
  assert (Hjl : exists w, In (j, w) l).
  { assert (Hin : In j (map fst l)).
    { unfold l. apply (argsort_in peak_scores j).
      unfold peak_scores. rewrite length_map. exact Hj. }
    apply in_map_iff in Hin. destruct Hin as ([j' w] & Hfst & Hin).
    cbn [fst] in Hfst. subst j'. exists w. exact Hin. }
  destruct Hjl as [w Hjw].
  assert (Hfirst : In (j, w) (firstn n l)).
  { rewrite <- (firstn_skipn n l) in Hjw. apply in_app_or in Hjw.
    destruct Hjw as [Hjw|Hjw]; [exact Hjw|].
    exfalso. apply Hnq. apply in_map_iff. exists j. split; [exact Hjq|].
    apply in_map_iff. exists (j, w). split; [reflexivity|exact Hjw]. }
  pose proof (sorted_split_le snd l n Hsorted (j, w) (i, v) Hfirst Hi) as Hle.
  cbn [snd] in Hle.
  destruct (Hval i v) as [-> _].
  { rewrite <- (firstn_skipn n l). apply in_or_app. right. exact Hi. }
  destruct (Hval j w Hjw) as [-> _]. rewrite Hjq in Hle. exact Hle.
Qed.

Lemma top_peaks_are_best_scored_witness :
  Np.item [0; 1; 0; 3; 0; 2; 0; 5; 0] 3 <= Np.item [0; 1; 0; 3; 0; 2; 0; 5; 0] 7.
Proof.
  apply (top_peaks_are_best_scored [0; 1; 0; 3; 0; 2; 0; 5; 0]
           [3; 5; 7]%nat 1 7%nat 3%nat).
  - vm_compute. auto.
  - vm_compute. auto.
  - vm_compute. intros [H|[]]. discriminate H.
Defined.

(** X12.  For a request of at least one moment, the moments computed from
    a score sequence number [min(num_moments, number of peaks)]: never more
    than requested, and all the peaks when there are fewer. *)
Theorem moments_count_for_positive_request :
  forall (fps duration : Q) (num_moments : Z) (moment_duration : Q)
         (scores : list Q) (ms : list moment),
    (0 < num_moments)%Z ->
    moments_from_scores fps duration num_moments moment_duration scores
    = Ok (Some ms) ->
    (Py.len ms <= num_moments)%Z /\
    exists peaks : list nat,
      peaks_of_scores fps scores = Ok peaks /\
      List.length ms = Nat.min (List.length peaks) (Z.to_nat num_moments).
Proof.
  intros fps duration num_moments moment_duration scores ms HK Hms.
  unfold moments_from_scores in Hms.
  destruct (peaks_of_scores fps scores) as [peaks|e]; [|discriminate].
  destruct (0 <? List.length peaks)%nat; [|discriminate].
  injection Hms as <-.
  rewrite moments_of_peaks_length.
  destruct (top_peaks_length scores peaks num_moments) as [Hpos _].
  specialize (Hpos HK).
  split.
  - unfold Py.len. rewrite moments_of_peaks_length, Hpos. lia.
  - exists peaks. split; [reflexivity|]. exact Hpos.
Qed.

Lemma moments_count_for_positive_request_witness :
  (Py.len [Moment (3 # 2) (9 # 2) 3; Moment (11 # 2) (17 # 2) 5] <= 2)%Z.
Proof.
  apply (moments_count_for_positive_request 1 9 2 3
           [0; 1; 0; 3; 0; 2; 0; 5; 0]
           [Moment (3 # 2) (9 # 2) 3; Moment (11 # 2) (17 # 2) 5]).
  - reflexivity.
  - vm_compute. reflexivity.
Defined.

(** X13.  Every moment computed from a score sequence belongs to a peak: a
    local maximum of the scores, at or above the 70th percentile, whose
    score the moment carries unchanged.  Its bounds are the floats lines
    162-163 compute from the peak, clamped: the moment starts at or after 0
    and ends at or before the video duration. *)
Theorem moments_are_built_around_peaks :
  forall (fps duration : Q) (num_moments : Z) (moment_duration : Q)
         (scores : list Q) (ms : list moment),
    moments_from_scores fps duration num_moments moment_duration scores
    = Ok (Some ms) ->
    Forall
      (fun m =>
         exists p : nat,
           Scipy.local_maximum scores p /\
           Np.percentile scores 70 <= Np.item scores p /\
           score m = Np.item scores p /\
           start_time m
           = Py.max 0 (Float.sub (Float.div (inject_Z (Z.of_nat p)) fps)
                         (Float.div moment_duration 2)) /\
           end_time m
           = Py.min duration
               (Float.add (Float.div (inject_Z (Z.of_nat p)) fps)
                  (Float.div moment_duration 2)) /\
           0 <= start_time m /\
           end_time m <= duration)
      ms.
Proof.
  intros fps duration num_moments moment_duration scores ms Hms.
  unfold moments_from_scores in Hms.
  destruct (peaks_of_scores fps scores) as [peaks|e] eqn:Hpeaks;
    [|discriminate].
  destruct (0 <? List.length peaks)%nat; [|discriminate].
  injection Hms as <-. unfold moments_of_peaks.
  assert (Hdist : (1 <= Py.int (fps * 2))%Z).
  { unfold peaks_of_scores, Scipy.find_peaks in Hpeaks.
    destruct (Z.ltb_spec (Py.int (fps * 2)) 1); [discriminate|lia]. }
  destruct (find_peaks_spec scores (Np.percentile scores 70)
              (Py.int (fps * 2)) Hdist) as (peaks' & Hfind & _ & Hmax & _).
  unfold peaks_of_scores in Hpeaks. rewrite Hpeaks in Hfind.
  injection Hfind as <-.
  eapply Permutation_Forall; [apply sort_by_perm|].
  apply Forall_forall. intros m Hm. apply in_map_iff in Hm.
  destruct Hm as (p & <- & Hp). apply top_peaks_incl in Hp.
  rewrite Forall_forall in Hmax. destruct (Hmax p Hp) as [Hlocal Hheight].
  exists p. split; [exact Hlocal|]. split; [exact Hheight|].
  split; [reflexivity|]. split; [reflexivity|]. split; [reflexivity|].
  apply moment_of_peak_clamped.
Qed.

Lemma moments_are_built_around_peaks_witness :
  Forall
    (fun m =>
       exists p : nat,
         Scipy.local_maximum [0; 1; 0; 3; 0; 2; 0; 5; 0] p /\
         Np.percentile [0; 1; 0; 3; 0; 2; 0; 5; 0] 70
         <= Np.item [0; 1; 0; 3; 0; 2; 0; 5; 0] p /\
         score m = Np.item [0; 1; 0; 3; 0; 2; 0; 5; 0] p /\
         start_time m
         = Py.max 0 (Float.sub (Float.div (inject_Z (Z.of_nat p)) 1)
                       (Float.div 3 2)) /\
         end_time m
         = Py.min 9 (Float.add (Float.div (inject_Z (Z.of_nat p)) 1)
                       (Float.div 3 2)) /\
         0 <= start_time m /\
         end_time m <= 9)
    [Moment (3 # 2) (9 # 2) 3; Moment (11 # 2) (17 # 2) 5].
Proof.
  apply (moments_are_built_around_peaks 1 9 2 3 [0; 1; 0; 3; 0; 2; 0; 5; 0]).
  vm_compute. reflexivity.
Defined.

Lemma nondecreasing_chain (x : list Q) :
  (forall i, (S i < List.length x)%nat -> Np.item x i <= Np.item x (S i)) ->
  forall a b, (a <= b)%nat -> (b < List.length x)%nat ->
              Np.item x a <= Np.item x b.
Proof.
  intros Hstep a b Hab. induction Hab as [|b Hab IH]; intros Hb.
  - apply Qle_refl.
  - eapply Qle_trans; [apply IH; lia|]. apply Hstep. exact Hb.
Qed.

Lemma nonincreasing_chain (x : list Q) :
  (forall i, (S i < List.length x)%nat -> Np.item x (S i) <= Np.item x i) ->
  forall a b, (a <= b)%nat -> (b < List.length x)%nat ->
              Np.item x b <= Np.item x a.
Proof.
  intros Hstep a b Hab. induction Hab as [|b Hab IH]; intros Hb.
  - apply Qle_refl.
  - eapply Qle_trans; [apply Hstep; exact Hb|]. apply IH. lia.
Qed.

(** X14.  A non-empty score sequence with fewer than three entries, or
    one that never decreases, or one that never increases (in particular a
    constant one), has no peak: the computation reports that nothing was
    found and [self.moments] is not replaced. *)
Theorem no_peak_no_moments :
  forall (fps duration : Q) (num_moments : Z) (moment_duration : Q)
         (scores : list Q),
    scores <> [] ->
    (1 <= Py.int (fps * 2))%Z ->
    (List.length scores < 3)%nat
    \/ (forall i, (S i < List.length scores)%nat ->
                  Np.item scores i <= Np.item scores (S i))
    \/ (forall i, (S i < List.length scores)%nat ->
                  Np.item scores (S i) <= Np.item scores i) ->
    peaks_of_scores fps scores = Ok [] /\
    moments_from_scores fps duration num_moments moment_duration scores
    = Ok None.
Proof.
  intros fps duration num_moments moment_duration scores _ Hdist Hshape.
  destruct (find_peaks_spec scores (Np.percentile scores 70)
              (Py.int (fps * 2)) Hdist) as (peaks & Hfind & _ & Hmax & _).
  assert (Hnil : peaks = []).
  { destruct peaks as [|p peaks']; [reflexivity|]. exfalso.
    inversion Hmax as [|? ? [Hlocal _] _]; subst.
    destruct Hlocal as (l & r & Hl & Hr & Hlen & _ & Hleft & Hright).
    destruct Hshape as [Hshort|[Hup|Hdown]].
    - lia.
    - pose proof (nondecreasing_chain scores Hup p (r + 1)
                    ltac:(lia) Hlen). lra.
    - pose proof (nonincreasing_chain scores Hdown (l - 1) p
                    ltac:(lia) ltac:(lia)). lra. }
  subst peaks. unfold moments_from_scores, peaks_of_scores.
  rewrite Hfind. split; reflexivity.
Qed.

Lemma no_peak_no_moments_witness :
  moments_from_scores 30 10 10 3 [2; 2; 2; 2; 2] = Ok None.
Proof.
  apply (no_peak_no_moments 30 10 10 3 [2; 2; 2; 2; 2]).
  - discriminate.
  - vm_compute. discriminate.
  - right. left. intros i Hi.
    do 4 (destruct i as [|i]; [vm_compute; discriminate|]).
    cbn in Hi. lia.
Defined.

Lemma int_of_fraction (x : Q) : 0 <= x -> x < 1 -> Py.int x = 0%Z.
Proof.
  intros H0 H1. unfold Py.int. destruct x as [n d].
  unfold Qle, Qlt in *. cbn in *.
  apply Z.quot_small. lia.
Qed.

(** X15.  Below half a frame per second two seconds span no window:
    [int(fps * 2)] is 0, [find_peaks] rejects the distance and the
    computation raises [ValueError] whatever the scores. *)
Theorem slow_source_raises :
  forall (fps duration : Q) (num_moments : Z) (moment_duration : Q)
         (scores : list Q),
    scores <> [] ->
    0 <= fps -> fps < 1 # 2 ->
    moments_from_scores fps duration num_moments moment_duration scores
    = Raise ValueError.
Proof.
  intros fps duration num_moments moment_duration scores _ H0 H1.
  unfold moments_from_scores, peaks_of_scores, Scipy.find_peaks.
  rewrite (int_of_fraction (fps * 2)) by lra. reflexivity.
Qed.

Lemma slow_source_raises_witness :
  moments_from_scores (1 # 4) 60 10 3 [0; 1; 0] = Raise ValueError.
Proof.
  apply (slow_source_raises (1 # 4) 60 10 3 [0; 1; 0]);
    [discriminate|vm_compute; discriminate|reflexivity].
Defined.

(** ** The audio windows *)

Lemma int_bounds (x : Q) :
  0 <= x -> inject_Z (Py.int x) <= x /\ x < inject_Z (Py.int x) + 1.
Proof.
  intros Hx.
  assert (Hfloor : Py.int x = Qfloor x).
  { unfold Py.int. destruct x as [n d]. cbn.
    apply Z.quot_div_nonneg; [|lia]. unfold Qle in Hx. cbn in Hx. lia. }
  rewrite Hfloor. split; [apply Qfloor_le|].
  pose proof (Qlt_floor x) as H. rewrite inject_Z_plus in H. exact H.
Qed.

Lemma int_half (z : Z) : Py.int (inject_Z z / 2) = (z ÷ 2)%Z.
Proof. unfold Py.int. cbn. rewrite Z.mul_1_r. reflexivity. Qed.

Lemma frame_length_bounds (self : MomentCatcher) :
  0 <= fps self ->
  (0 <= frame_length self)%Z /\
  (fps self < 20 -> (frame_length self < 2)%Z) /\
  (20 <= fps self -> (2 <= frame_length self)%Z).
Proof.
  intros Hfps. unfold frame_length.
  assert (H0 : 0 <= fps self * 0.1) by lra.
  destruct (int_bounds _ H0) as [Hlo Hhi].
  split; [apply int_nonneg; exact H0|]. split; intros H.
  - assert (Hlt : inject_Z (Py.int (fps self * 0.1)) < inject_Z 2).
    { change (inject_Z 2) with 2. lra. }
    rewrite <- Zlt_Qlt in Hlt. exact Hlt.
  - assert (Hlt : inject_Z 1 < inject_Z (Py.int (fps self * 0.1))).
    { change (inject_Z 1) with 1. lra. }
    rewrite <- Zlt_Qlt in Hlt. lia.
Qed.

(** X16.  On a source with an audio track and a frame rate below 20 fps the
    window is at most one sample long, the hop [int(frame_length / 2)] is
    0, and [range] raises [ValueError]: the audio extractor fails, and
    [detect_moments] with it. *)
Theorem low_frame_rate_audio_raises :
  forall (K : Kernels) (self : MomentCatcher) (audio : AudioFileClip)
         (num_moments : Z) (moment_duration : Q) (h : heap),
    clip_audio (clip self) = Some audio ->
    0 <= fps self -> fps self < 20 ->
    hop_length self = 0%Z /\
    extract_audio_features K self = Raise ValueError /\
    detect_moments K self num_moments moment_duration h
    = (Raise ValueError, h).
Proof.
  intros K self audio num_moments moment_duration h Haudio H0 H20.
  destruct (frame_length_bounds self H0) as (Hfl0 & Hfl2 & _).
  specialize (Hfl2 H20).
  assert (Hhop : hop_length self = 0%Z).
  { unfold hop_length. rewrite int_half. apply Z.quot_small. lia. }
  assert (Hraise : extract_audio_features K self = Raise ValueError).
  { unfold extract_audio_features, window_starts, Py.range.
    rewrite Haudio, Hhop. reflexivity. }
  repeat split; try assumption.
  unfold detect_moments, mbind, lift. rewrite Hraise. reflexivity.
Qed.

Lemma low_frame_rate_audio_raises_witness :
  extract_audio_features sample_kernels
    (catcher_of "clip.mp4"
       {| clip_fps := 15; clip_duration := 1;
          clip_audio := Some sample_audio; clip_frames := [] |})
  = Raise ValueError.
Proof.
  apply (low_frame_rate_audio_raises sample_kernels
           (catcher_of "clip.mp4"
              {| clip_fps := 15; clip_duration := 1;
                 clip_audio := Some sample_audio; clip_frames := [] |})
           sample_audio 10 3 empty_heap eq_refl).
  - vm_compute. discriminate.
  - reflexivity.
Defined.

Lemma range_from_zero (stop step : Z) :
  (0 < step)%Z ->
  exists n : nat,
    Py.range 0 stop step
    = Ok (map (fun k => (Z.of_nat k * step)%Z) (seq 0 n)) /\
    Z.of_nat n = (if (0 <? stop)%Z then (stop - 1) / step + 1 else 0)%Z /\
    (forall k, (k < n)%nat -> (Z.of_nat k * step < stop)%Z).
Proof.
  intros Hstep. unfold Py.range.
  destruct (Z.eqb_spec step 0); [lia|].
  destruct (Z.ltb_spec 0 step); [|lia].
  rewrite Z.sub_0_r.
  destruct (Z.ltb_spec 0 stop) as [Hstop|Hstop].
  - exists (Z.to_nat ((stop - 1) / step + 1)).
    assert (Hq : (0 <= (stop - 1) / step)%Z)
      by (apply Z.div_pos; lia).
    split; [reflexivity|]. split; [lia|].
    intros k Hk.
    assert (Hk' : (Z.of_nat k <= (stop - 1) / step)%Z) by lia.
    pose proof (Z.mul_div_le (stop - 1) step Hstep).
    nia.
  - exists 0%nat. split; [reflexivity|]. split; [reflexivity|].
    intros k Hk. lia.
Qed.

Lemma slice_full_window {A} (l : list A) (i n : Z) :
  (0 <= i)%Z -> (0 <= n)%Z -> (i + n <= Py.len l)%Z ->
  List.length (Py.slice i (i + n) l) = Z.to_nat n.
Proof.
  intros Hi Hn Hfit. unfold Py.slice, Py.clamp_index, Py.len in *.
  destruct (Z.ltb_spec i 0); [lia|].
  destruct (Z.ltb_spec (i + n) 0); [lia|].
  rewrite length_firstn, length_skipn. lia.
Qed.

(** X17.  On a source with an audio track and at least 20 fps the extractor
    succeeds and returns one row per window.  The windows start at the
    multiples of the (positive) hop below [len - frame_length]; there are
    [(len - frame_length - 1) // hop + 1] of them when the track is longer
    than a window and none otherwise; each holds exactly [frame_length]
    samples and ends strictly before the end of the track, so that the last
    sample belongs to no window. *)
Theorem audio_windows_are_full :
  forall (K : Kernels) (self : MomentCatcher) (audio : AudioFileClip),
    clip_audio (clip self) = Some audio ->
    20 <= fps self ->
    let samples := audio_array audio in
    (1 <= hop_length self)%Z /\
    exists (starts : list Z) (a : matrix),
      window_starts self samples = Ok starts /\
      extract_audio_features K self = Ok a /\
      List.length a = List.length starts /\
      starts = map (fun k => (Z.of_nat k * hop_length self)%Z)
                   (seq 0 (List.length starts)) /\
      Py.len starts
      = (if (0 <? Py.len samples - frame_length self)%Z
         then (Py.len samples - frame_length self - 1) / hop_length self + 1
         else 0)%Z /\
      Forall (fun i =>
                (0 <= i)%Z /\
                (i + frame_length self < Py.len samples)%Z /\
                List.length (Py.slice i (i + frame_length self) samples)
                = Z.to_nat (frame_length self))
             starts.
Proof.
  intros K self audio Haudio H20 samples.
  destruct (frame_length_bounds self ltac:(lra)) as (Hfl0 & _ & Hfl2).
  specialize (Hfl2 H20).
  assert (Hhop : (1 <= hop_length self)%Z).
  { unfold hop_length. rewrite int_half.
    apply Z.quot_le_lower_bound; lia. }
  split; [exact Hhop|].
  destruct (range_from_zero (Py.len samples - frame_length self)
              (hop_length self) ltac:(lia)) as (n & Hrange & Hn & Hbelow).
  eexists. eexists.
  split; [exact Hrange|].
  split.
  { unfold extract_audio_features. rewrite Haudio.
    fold samples. unfold window_starts in Hrange |- *. rewrite Hrange.
    reflexivity. }
  rewrite !length_map, length_seq.
  split; [reflexivity|]. split; [reflexivity|].
  split.
  { unfold Py.len at 1. rewrite length_map, length_seq. exact Hn. }
  apply Forall_forall. intros i Hi. apply in_map_iff in Hi.
  destruct Hi as (k & <- & Hk). apply in_seq in Hk.
  specialize (Hbelow k ltac:(lia)).
  repeat split; try lia.
  apply slice_full_window; lia.
Qed.

Lemma audio_windows_are_full_witness :
  exists (starts : list Z) (a : matrix),
    window_starts (catcher_of "clip.mp4" sample_clip)
      (audio_array sample_audio) = Ok starts /\
    extract_audio_features sample_kernels (catcher_of "clip.mp4" sample_clip)
    = Ok a /\
    List.length a = List.length starts /\
    starts = map (fun k => (Z.of_nat k
                            * hop_length (catcher_of "clip.mp4" sample_clip))%Z)
                 (seq 0 (List.length starts)) /\
    Py.len starts
    = (if (0 <? Py.len (audio_array sample_audio)
                - frame_length (catcher_of "clip.mp4" sample_clip))%Z
       then (Py.len (audio_array sample_audio)
             - frame_length (catcher_of "clip.mp4" sample_clip) - 1)
            / hop_length (catcher_of "clip.mp4" sample_clip) + 1
       else 0)%Z /\
    Forall (fun i =>
              (0 <= i)%Z /\
              (i + frame_length (catcher_of "clip.mp4" sample_clip)
               < Py.len (audio_array sample_audio))%Z /\
              List.length
                (Py.slice i
                   (i + frame_length (catcher_of "clip.mp4" sample_clip))
                   (audio_array sample_audio))
              = Z.to_nat (frame_length (catcher_of "clip.mp4" sample_clip)))
           starts.
Proof.
  apply (audio_windows_are_full sample_kernels
           (catcher_of "clip.mp4" sample_clip) sample_audio eq_refl).
  vm_compute. discriminate.
Defined.

(** X18.  A track no longer than one window gives no audio row at all (the
    window that would fit exactly is not produced either); [detect_moments]
    then skips scoring and returns the stored moments without raising. *)
Theorem short_track_gives_no_rows :
  forall (K : Kernels) (self : MomentCatcher) (audio : AudioFileClip)
         (num_moments : Z) (moment_duration : Q) (h : heap),
    clip_audio (clip self) = Some audio ->
    20 <= fps self ->
    (Py.len (audio_array audio) <= frame_length self)%Z ->
    extract_audio_features K self = Ok [] /\
    detect_moments K self num_moments moment_duration h = (Ok (moments h), h).
Proof.
  intros K self audio num_moments moment_duration h Haudio H20 Hshort.
  destruct (frame_length_bounds self ltac:(lra)) as (Hfl0 & _ & Hfl2).
  specialize (Hfl2 H20).
  assert (Hhop : (1 <= hop_length self)%Z).
  { unfold hop_length. rewrite int_half.
    apply Z.quot_le_lower_bound; lia. }
  assert (Ha : extract_audio_features K self = Ok []).
  { unfold extract_audio_features, window_starts, Py.range.
    rewrite Haudio.
    destruct (Z.eqb_spec (hop_length self) 0); [lia|].
    destruct (Z.ltb_spec 0 (hop_length self)); [|lia].
    destruct (Z.ltb_spec 0 (Py.len (audio_array audio) - frame_length self));
      [lia|].
    reflexivity. }
  split; [exact Ha|].
  apply (detect_moments_skips K self [] num_moments moment_duration h Ha).
  left. reflexivity.
Qed.

Lemma short_track_gives_no_rows_witness :
  extract_audio_features sample_kernels
    (catcher_of "clip.mp4"
       {| clip_fps := 30; clip_duration := 1;
          clip_audio := Some {| audio_fps := 44100;
                                to_soundarray := Mono [1; -1; 1] |};
          clip_frames := [[]] |})
  = Ok [].
Proof.
  apply (short_track_gives_no_rows sample_kernels
           (catcher_of "clip.mp4"
              {| clip_fps := 30; clip_duration := 1;
                 clip_audio := Some {| audio_fps := 44100;
                                       to_soundarray := Mono [1; -1; 1] |};
                 clip_frames := [[]] |})
           {| audio_fps := 44100; to_soundarray := Mono [1; -1; 1] |}
           10 3 empty_heap eq_refl).
  - vm_compute. discriminate.
  - vm_compute. discriminate.
Defined.

Lemma sum_nonneg (l : list Q) : Forall (fun v => 0 <= v) l -> 0 <= Py.sum l.
Proof.
  unfold Py.sum. induction 1 as [|v l Hv Hl IH]; cbn [fold_right].
  - apply Qle_refl.
  - lra.
Qed.

Lemma diff_length (l : list Z) : List.length (diff l) = (List.length l - 1)%nat.
Proof.
  induction l as [|a l IH]; [reflexivity|].
  destruct l as [|b l]; [reflexivity|].
  cbn [diff List.length] in *. rewrite IH. lia.
Qed.

(** X19.  The energy of a window is never negative, and the zero-crossing
    rate of a non-empty window lies in [0, 1): at most [len - 1] of its
    [len] samples can follow a sign change. *)
Theorem energy_and_zcr_bounds :
  forall frame : list Q,
    0 <= energy frame /\
    (frame <> [] -> 0 <= zcr frame /\ zcr frame < 1).
Proof.
  intros frame. split.
  - unfold energy. apply sum_nonneg. apply Forall_forall.
    intros v Hv. apply in_map_iff in Hv. destruct Hv as (u & <- & _).
    nra.
  - intros Hne. unfold zcr, Py.len.
    set (signs := map (fun v => Z.sgn (Qnum v)) frame).
    set (crossings := filter (fun d => negb (d =? 0)%Z) (diff signs)).
    assert (Hlen : (0 < List.length frame)%nat)
      by (destruct frame; [congruence|cbn; lia]).
    assert (Hc : (List.length crossings < List.length frame)%nat).
    { unfold crossings.
      pose proof (filter_length_le (fun d => negb (d =? 0)%Z) (diff signs)).
      rewrite diff_length in H. unfold signs in *. rewrite length_map in H.
      lia. }
    assert (Hpos : 0 < inject_Z (Z.of_nat (List.length frame))).
    { change 0 with (inject_Z 0). rewrite <- Zlt_Qlt. lia. }
    split.
    + apply Qle_shift_div_l; [exact Hpos|]. rewrite Qmult_0_l.
      change 0 with (inject_Z 0). rewrite <- Zle_Qle. lia.
    + apply Qlt_shift_div_r; [exact Hpos|]. rewrite Qmult_1_l.
      rewrite <- Zlt_Qlt. lia.
Qed.

Lemma energy_and_zcr_bounds_witness :
  0 <= zcr [1; -1; 1] /\ zcr [1; -1; 1] < 1.
Proof.
  apply (proj2 (energy_and_zcr_bounds [1; -1; 1])). discriminate.
Defined.

(** ** The visual features *)

Lemma visual_loop_keeps_rows (K : Kernels) (frames : list frame) :
  forall prev features k,
    (k < List.length features)%nat ->
    nth_error (visual_loop K frames prev features) k = nth_error features k.
Proof.
  induction frames as [|f rest IH]; intros prev features k Hk;
    cbn [visual_loop].
  - reflexivity.
  - rewrite IH by (rewrite length_app; cbn; lia).
    apply nth_error_app1. exact Hk.
Qed.

Lemma visual_loop_rows (K : Kernels) (frames : list frame) :
  forall prev features i f,
    nth_error frames i = Some f ->
    nth_error (visual_loop K frames prev features) (List.length features + i)
    = Some [match i with
            | O => match prev with
                   | Some p => mean_absdiff K (cvtColor_gray K f) p
                   | None => 0
                   end
            | S j => match nth_error frames j with
                     | Some g => mean_absdiff K (cvtColor_gray K f)
                                   (cvtColor_gray K g)
                     | None => 0
                     end
            end;
            canny_density K (cvtColor_gray K f);
            var_gray K (cvtColor_gray K f);
            color_var K f].
Proof.
  induction frames as [|f0 rest IH]; intros prev features i f Hi.
  - destruct i; discriminate.
  - cbn [visual_loop]. destruct i as [|i].
    + injection Hi as <-. rewrite Nat.add_0_r.
      rewrite visual_loop_keeps_rows by (rewrite length_app; cbn; lia).
      rewrite nth_error_app2 by lia. rewrite Nat.sub_diag. reflexivity.
    + cbn [nth_error] in Hi.
      specialize (IH (Some (cvtColor_gray K f0))
                     (features
                      ++ [[match prev with
                           | Some p => mean_absdiff K (cvtColor_gray K f0) p
                           | None => 0
                           end; canny_density K (cvtColor_gray K f0);
                           var_gray K (cvtColor_gray K f0); color_var K f0]])
                     i f Hi).
      rewrite length_app in IH. cbn [List.length] in IH.
      replace (List.length features + S i)%nat
        with (List.length features + 1 + i)%nat by lia.
      rewrite IH. destruct i as [|i]; reflexivity.
Qed.

(** X20.  The visual extractor returns one row per decoded frame, in
    decoding order.  The row of a frame holds its motion score, edge
    density, brightness variance and colour variance; the motion score of
    the first frame is 0 and that of any other frame compares its grayscale
    image with the grayscale image of the frame just before it. *)
Theorem visual_features_follow_frames :
  forall (K : Kernels) (self : MomentCatcher),
    List.length (extract_visual_features K self)
    = List.length (clip_frames (clip self)) /\
    forall (i : nat) (f : frame),
      nth_error (clip_frames (clip self)) i = Some f ->
      nth_error (extract_visual_features K self) i
      = Some [match i with
              | O => 0
              | S j => match nth_error (clip_frames (clip self)) j with
                       | Some g => mean_absdiff K (cvtColor_gray K f)
                                     (cvtColor_gray K g)
                       | None => 0
                       end
              end;
              canny_density K (cvtColor_gray K f);
              var_gray K (cvtColor_gray K f);
              color_var K f].
Proof.
  intros K self. split; [apply visual_features_shape|].
  intros i f Hi. unfold extract_visual_features.
  exact (visual_loop_rows K (clip_frames (clip self)) None [] i f Hi).
Qed.

(** ** The best peak is always found *)

Lemma local_maxima_loop_complete (x : list Q) (p : nat) :
  (p < List.length x - 1)%nat ->
  Np.item x (p - 1) < Np.item x p ->
  Np.item x (p + 1) < Np.item x p ->
  forall fuel i,
    (1 <= i <= p)%nat ->
    (List.length x - 1 - i <= fuel)%nat ->
    In p (Scipy.local_maxima_loop x (List.length x - 1) i fuel).
Proof.
  intros Hp Hleft Hright.
  induction fuel as [|fuel IH]; intros i Hi Hfuel; [lia|].
  cbn [Scipy.local_maxima_loop].
  destruct (Nat.ltb_spec i (List.length x - 1)) as [Hlt|]; [|lia].
  destruct (plateau_end_spec x (List.length x - 1) (Np.item x i)
              (List.length x) (i + 1) ltac:(lia) ltac:(lia))
    as (Hrange & Hflat & _).
  set (e := Scipy.plateau_end x (List.length x - 1) (Np.item x i) (i + 1)
              (List.length x)) in *.
  assert (Hstep : forall i', (i < i' <= p)%nat ->
                  In p (Scipy.local_maxima_loop x (List.length x - 1) i' fuel))
    by (intros i' Hi'; apply IH; lia).
  (* a strict maximum at [i] closes the plateau at once *)
  assert (Hat : p = i -> e = (i + 1)%nat).
  { intros ->. destruct (Nat.eq_dec e (i + 1)) as [|Hne]; [assumption|].
    exfalso. assert (Heq : Np.item x (i + 1) == Np.item x i)
      by (apply Hflat; lia).
    rewrite Heq in Hright. lra. }
  destruct (Qlt_le_dec (Np.item x (i - 1)) (Np.item x i)) as [Hrise|Hflat'].
  - destruct (Qlt_le_dec (Np.item x e) (Np.item x i)) as [Hfall|Hstay].
    + destruct (Nat.eq_dec p i) as [Hpi|Hpi].
      * left. rewrite (Hat Hpi). subst p.
        replace (i + (i + 1 - 1))%nat with (2 * i)%nat by lia.
        rewrite Nat.mul_comm. apply Nat.div_mul. lia.
      * right. replace (e + 1)%nat with (S e) by lia. apply Hstep.
        split; [lia|].
        destruct (Nat.le_gt_cases (S e) p) as [|Hin]; [assumption|].
        exfalso.
        destruct (Nat.eq_dec p e) as [->|Hpe].
        -- assert (Heq : Np.item x (e - 1) == Np.item x i).
           { destruct (Nat.eq_dec (e - 1) i) as [->|]; [reflexivity|].
             apply Hflat. lia. }
           rewrite Heq in Hleft. lra.
        -- assert (Heq1 : Np.item x p == Np.item x i) by (apply Hflat; lia).
           assert (Heq2 : Np.item x (p - 1) == Np.item x i).
           { destruct (Nat.eq_dec (p - 1) i) as [->|]; [reflexivity|].
             apply Hflat. lia. }
           rewrite Heq1, Heq2 in Hleft. lra.
    + replace (i + 1)%nat with (S i) by lia. apply Hstep.
      split; [lia|].
      destruct (Nat.eq_dec p i) as [Hpi|]; [|lia].
      exfalso. rewrite (Hat Hpi) in Hstay. subst p. lra.
  - replace (i + 1)%nat with (S i) by lia. apply Hstep.
    split; [lia|].
    destruct (Nat.eq_dec p i) as [->|]; [|lia].
    exfalso. lra.
Qed.

(** Every interior sample strictly above both neighbours is reported. *)
Lemma local_maxima_1d_complete (x : list Q) (p : nat) :
  (1 <= p)%nat -> (p + 1 < List.length x)%nat ->
  Np.item x (p - 1) < Np.item x p ->
  Np.item x (p + 1) < Np.item x p ->
  In p (Scipy.local_maxima_1d x).
Proof.
  intros H1 H2 Hleft Hright. unfold Scipy.local_maxima_1d.
  apply local_maxima_loop_complete; try assumption; lia.
Qed.

Lemma percentile_le_max (x : list Q) (M : Q) :
  x <> [] ->
  (forall v, In v x -> v <= M) ->
  Np.percentile x 70 <= M.
Proof.
  intros Hne Hmax. unfold Np.percentile.
  set (s := Py.sort_by (fun v => v) x).
  assert (Hperm : Permutation x s) by apply sort_by_perm.
  assert (Hlen : (0 < List.length s)%nat).
  { rewrite <- (Permutation_length Hperm).
    destruct x; [congruence|cbn; lia]. }
  assert (Hs : forall k, (k < List.length s)%nat -> nth k s 0 <= M).
  { intros k Hk. apply Hmax.
    apply (Permutation_in _ (Permutation_sym Hperm)). apply nth_In. exact Hk. }
  set (n := inject_Z (Z.of_nat (List.length s))).
  assert (Hn : 1 <= n).
  { unfold n. change 1 with (inject_Z 1). rewrite <- Zle_Qle. lia. }
  set (vi := 70 / 100 * (n - 1)).
  assert (Hvi : vi == (7 # 10) * (n - 1)) by (unfold vi; field).
  assert (Hvi0 : 0 <= vi) by lra.
  assert (Hvi1 : vi <= n - 1) by lra.
  pose proof (Qfloor_le vi) as Hfl.
  pose proof (Qlt_floor vi) as Hfu. rewrite inject_Z_plus in Hfu.
  assert (Hf0 : (0 <= Qfloor vi)%Z).
  { change 0%Z with (Qfloor 0). apply Qfloor_resp_le. exact Hvi0. }
  assert (Hf1 : (Qfloor vi < Z.of_nat (List.length s))%Z).
  { rewrite Zlt_Qlt. fold n. lra. }
  set (lo := Z.to_nat (Qfloor vi)).
  assert (Hlo : (lo < List.length s)%nat) by (unfold lo; lia).
  set (hi := Nat.min (lo + 1) (List.length s - 1)).
  assert (Hhi : (hi < List.length s)%nat) by (unfold hi; lia).
  pose proof (Hs lo Hlo) as Ha. pose proof (Hs hi Hhi) as Hb.
  set (a := nth lo s 0) in *. set (b := nth hi s 0) in *.
  set (frac := vi - inject_Z (Qfloor vi)).
  assert (Hfrac : 0 <= frac /\ frac <= 1).
  { unfold frac. change (inject_Z 1) with 1 in Hfu. split; lra. }
  destruct Hfrac as [Hfrac0 Hfrac1].
  assert (Hmix : a + (b - a) * frac == a * (1 - frac) + b * frac) by ring.
  rewrite Hmix.
  assert (H1 : a * (1 - frac) <= M * (1 - frac)).
  { apply Qmult_le_compat_r; lra. }
  assert (H2 : b * frac <= M * frac).
  { apply Qmult_le_compat_r; lra. }
  assert (Hsum : M * (1 - frac) + M * frac == M) by ring.
  lra.
Qed.

Lemma sorted_last_is_max {A} (key : A -> Q) (l : list A) (a : A) :
  StronglySorted (fun u v => key u <= key v) (l ++ [a]) ->
  forall b, In b l -> key b <= key a.
Proof.
  intros Hs b Hb.
  apply (sorted_split_le key (l ++ [a]) (List.length l) Hs).
  - rewrite firstn_app, Nat.sub_diag, firstn_all. cbn. rewrite app_nil_r.
    exact Hb.
  - rewrite skipn_app, Nat.sub_diag, skipn_all. cbn. left. reflexivity.
Qed.

(** The index of a strict maximum is the last entry of [argsort]. *)
Lemma argsort_ends_with_max (x : list Q) (j0 : nat) :
  (j0 < List.length x)%nat ->
  (forall j, (j < List.length x)%nat -> j <> j0 -> nth j x 0 < nth j0 x 0) ->
  exists init, Np.argsort x = init ++ [j0].
Proof.
  intros Hj0 Hmax. unfold Np.argsort.
  set (l := Py.sort_by snd (combine (seq 0 (List.length x)) x)).
  assert (Hsorted : StronglySorted (fun u v => snd u <= snd v) l)
    by apply sort_by_sorted.
  assert (Hperm : Permutation (combine (seq 0 (List.length x)) x) l)
    by apply sort_by_perm.
  assert (Hval : forall i v, In (i, v) l ->
                             (i < List.length x)%nat /\ v = nth i x 0).
  { intros i v Hin.
    apply (Permutation_in _ (Permutation_sym Hperm)) in Hin.
    pose proof (in_combine_l _ _ _ _ Hin) as Hi. apply in_seq in Hi.
    apply combine_seq_nth in Hin. destruct Hin as [_ ->].
    rewrite Nat.sub_0_r. split; [lia|reflexivity]. }
  assert (Hin0 : In (j0, nth j0 x 0) l).
  { apply (Permutation_in _ Hperm).
    replace (j0, nth j0 x 0)
      with (nth j0 (combine (seq 0 (List.length x)) x) (0%nat, 0)).
    - apply nth_In. rewrite length_combine, length_seq. lia.
    - rewrite combine_nth by apply length_seq.
      rewrite seq_nth by lia. reflexivity. }
  destruct (exists_last (l := l)) as (init & [i v] & Hl).
  { intros Hnil. rewrite Hnil in Hin0. contradiction. }
  exists (map fst init). rewrite Hl, map_app. cbn [map fst].
  f_equal. f_equal.
  destruct (Hval i v) as [Hi ->];
    [rewrite Hl; apply in_or_app; right; left; reflexivity|].
  destruct (Nat.eq_dec i j0) as [|Hne]; [assumption|]. exfalso.
  rewrite Hl in Hsorted, Hin0.
  apply in_app_or in Hin0. destruct Hin0 as [Hin0|[Heq|[]]].
  - pose proof (sorted_last_is_max snd init (i, nth i x 0) Hsorted _ Hin0)
      as Hle.
    cbn [snd] in Hle. specialize (Hmax i Hi Hne). lra.
  - injection Heq as Heq _. congruence.
Qed.

Lemma mask_in_conv {A} (d : A) (l : list A) :
  forall (keep : list bool) (k : nat),
    (k < List.length l)%nat -> nth k keep false = true ->
    In (nth k l d) (Np.mask keep l).
Proof.
  unfold Np.mask. induction l as [|q l IH]; intros keep k Hk Hkeep.
  - cbn in Hk. lia.
  - destruct keep as [|b t]; [destruct k; discriminate|].
    cbn [combine filter snd]. destruct k as [|k].
    + cbn in Hkeep. subst b. left. reflexivity.
    + cbn in Hkeep, Hk.
      assert (Hrest : In (nth k l d)
                         (map fst (filter snd (combine l t))))
        by (apply IH; [lia|assumption]).
      destruct b; [right|]; exact Hrest.
Qed.

Section BestPeakSurvives.

Variable peaks : list nat.
Variable distance : Z.
Hypothesis peaks_sorted : StronglySorted lt peaks.

Lemma clear_left_near (j : nat) :
  forall k1 keep k,
    nth k keep false = true ->
    nth k (Scipy.clear_left peaks distance j k1 keep) false = false ->
    (k < k1)%nat /\
    (Scipy.peak_at peaks j - Scipy.peak_at peaks k < distance)%Z.
Proof.
  induction k1 as [|k0 IH]; intros keep k Hkeep Hclr;
    cbn [Scipy.clear_left] in Hclr.
  - congruence.
  - destruct (Z.ltb_spec (Scipy.peak_at peaks j - Scipy.peak_at peaks k0)
                         distance) as [Hnear|Hfar]; [|congruence].
    destruct (nth k (Scipy.clear k0 keep) false) eqn:Hk.
    + destruct (IH _ k Hk Hclr) as [Hlt Hd]. split; [lia|exact Hd].
    + rewrite nth_clear in Hk.
      destruct (Nat.eqb_spec k k0) as [->|]; [|congruence].
      split; [lia|exact Hnear].
Qed.

Lemma clear_right_near (j : nat) :
  forall fuel k0 keep k,
    nth k keep false = true ->
    nth k (Scipy.clear_right peaks distance j k0 fuel keep) false = false ->
    (k0 <= k < List.length peaks)%nat /\
    (Scipy.peak_at peaks k - Scipy.peak_at peaks j < distance)%Z.
Proof.
  induction fuel as [|fuel IH]; intros k0 keep k Hkeep Hclr;
    cbn [Scipy.clear_right] in Hclr.
  - congruence.
  - destruct (Nat.ltb_spec k0 (List.length peaks)) as [Hin|];
      cbn [andb] in Hclr; [|congruence].
    destruct (Z.ltb_spec (Scipy.peak_at peaks k0 - Scipy.peak_at peaks j)
                         distance) as [Hnear|Hfar]; [|congruence].
    destruct (nth k (Scipy.clear k0 keep) false) eqn:Hk.
    + destruct (IH _ _ k Hk Hclr) as [Hlt Hd]. split; [lia|exact Hd].
    + rewrite nth_clear in Hk.
      destruct (Nat.eqb_spec k k0) as [->|]; [|congruence].
      split; [lia|exact Hnear].
Qed.

(** A visit clears only other peaks, and only peaks closer than
    [distance]. *)
Lemma visit_near (keep : list bool) (j k : nat) :
  (j < List.length peaks)%nat ->
  nth k keep false = true ->
  nth k (Scipy.visit peaks distance keep j) false = false ->
  k <> j /\
  (Z.abs (Scipy.peak_at peaks k - Scipy.peak_at peaks j) < distance)%Z.
Proof.
  intros Hj Hkeep Hclr. unfold Scipy.visit in Hclr.
  destruct (nth j keep false); [|congruence].
  destruct (nth k (Scipy.clear_left peaks distance j j keep) false) eqn:Hk.
  - destruct (clear_right_near j _ _ _ k Hk Hclr) as [Hrange Hd].
    split; [lia|].
    pose proof (sorted_nth_lt peaks j k peaks_sorted ltac:(lia) ltac:(lia)).
    lia.
  - destruct (clear_left_near j _ _ k Hkeep Hk) as [Hlt Hd].
    split; [lia|].
    pose proof (sorted_nth_lt peaks k j peaks_sorted Hlt Hj).
    lia.
Qed.

(** Once a kept peak has cleared its neighbourhood, no later visit clears
    it. *)
Lemma visits_keep_isolated (j0 : nat) (order : list nat) :
  (j0 < List.length peaks)%nat ->
  Forall (fun j => (j < List.length peaks)%nat) order ->
  forall keep,
    nth j0 keep false = true ->
    (forall k, (k < List.length peaks)%nat -> k <> j0 ->
               (Z.abs (Scipy.peak_at peaks k - Scipy.peak_at peaks j0)
                < distance)%Z ->
               nth k keep false = false) ->
    nth j0 (fold_left (Scipy.visit peaks distance) order keep) false = true.
Proof.
  intros Hj0 Horder. induction Horder as [|j rest Hj Hrest IH];
    intros keep Hkept Hiso; cbn [fold_left].
  - exact Hkept.
  - destruct (visit_spec peaks distance peaks_sorted keep j Hj)
      as (_ & Hmono & _).
    apply IH.
    + destruct (nth j0 (Scipy.visit peaks distance keep j) false) eqn:Hv;
        [reflexivity|]. exfalso.
      destruct (visit_near keep j j0 Hj Hkept Hv) as [Hne Hd].
      assert (Hkj : nth j keep false = true).
      { unfold Scipy.visit in Hv. destruct (nth j keep false);
          [reflexivity|congruence]. }
      rewrite (Hiso j Hj ltac:(congruence)) in Hkj; [discriminate|].
      rewrite <- Z.abs_opp.
      replace (- (Scipy.peak_at peaks j - Scipy.peak_at peaks j0))%Z
        with (Scipy.peak_at peaks j0 - Scipy.peak_at peaks j)%Z by lia.
      exact Hd.
    + intros k Hk Hne Hd.
      destruct (nth k (Scipy.visit peaks distance keep j) false) eqn:Hv;
        [|reflexivity].
      apply Hmono in Hv. rewrite (Hiso k Hk Hne Hd) in Hv. discriminate.
Qed.

(** The peak of strictly highest priority survives the distance rule. *)
Lemma select_by_peak_distance_keeps_best (priority : list Q) (j0 : nat) :
  List.length priority = List.length peaks ->
  (j0 < List.length peaks)%nat ->
  (forall j, (j < List.length peaks)%nat -> j <> j0 ->
             nth j priority 0 < nth j0 priority 0) ->
  nth j0 (Scipy.select_by_peak_distance peaks priority distance) false = true.
Proof.
  intros Hlen Hj0 Hbest. unfold Scipy.select_by_peak_distance.
  destruct (argsort_ends_with_max priority j0) as [init Hsort].
  { lia. }
  { intros j Hj. apply Hbest. lia. }
  rewrite Hsort, rev_app_distr. cbn [rev app fold_left].
  assert (Hall : nth j0 (repeat true (List.length peaks)) false = true).
  { apply nth_repeat_lt. exact Hj0. }
  destruct (visit_spec peaks distance peaks_sorted
              (repeat true (List.length peaks)) j0 Hj0)
    as (_ & _ & Hclr).
  apply visits_keep_isolated.
  - exact Hj0.
  - apply Forall_forall. intros j Hj. apply in_rev in Hj.
    assert (Hin : In j (Np.argsort priority))
      by (rewrite Hsort; apply in_or_app; left; exact Hj).
    apply argsort_in in Hin. lia.
  - destruct (nth j0 (Scipy.visit peaks distance
                        (repeat true (List.length peaks)) j0) false)
      eqn:Hv; [reflexivity|]. exfalso.
    destruct (visit_near _ j0 j0 Hj0 Hall Hv) as [Hne _]. congruence.
  - intros k Hk Hne Hd. apply Hclr; assumption.
Qed.

End BestPeakSurvives.

Lemma top_peaks_keep_best (scores : list Q) (peaks : list nat)
    (num_moments : Z) (p : nat) :
  NoDup peaks ->
  In p peaks ->
  (forall q, In q peaks -> q <> p -> Np.item scores q < Np.item scores p) ->
  (1 <= num_moments)%Z ->
  In p (top_peaks scores peaks num_moments) /\
  (num_moments = 1%Z -> top_peaks scores peaks num_moments = [p]).
Proof.
  intros Hnd Hp Hbest HK.
  destruct (In_nth peaks p 0%nat Hp) as (j0 & Hj0 & Hj0p).
  set (peak_scores := map (Np.item scores) peaks).
  assert (Hlen : List.length peak_scores = List.length peaks)
    by apply length_map.
  assert (Hitem : forall j, (j < List.length peaks)%nat ->
                            nth j peak_scores 0
                            = Np.item scores (nth j peaks 0%nat)).
  { intros j Hj. unfold peak_scores.
    rewrite (nth_indep _ 0 (Np.item scores 0%nat))
      by (rewrite length_map; lia).
    apply map_nth. }
  destruct (argsort_ends_with_max peak_scores j0) as [init Hsort].
  { lia. }
  { intros j Hj Hne. rewrite !Hitem by lia. rewrite Hj0p.
    apply Hbest; [apply nth_In; lia|].
    intros Heq. apply Hne.
    apply (proj1 (NoDup_nth peaks 0%nat) Hnd); [lia|lia|congruence]. }
  assert (Hinit : S (List.length init) = List.length peaks).
  { pose proof (Permutation_length (argsort_perm peak_scores)) as H.
    rewrite length_seq, Hsort, length_app in H. cbn in H. lia. }
  unfold top_peaks. fold peak_scores. rewrite Hsort.
  unfold Py.slice_from, Py.clamp_index, Py.len.
  rewrite length_app. cbn [List.length].
  destruct (Z.ltb_spec (- num_moments) 0) as [_|]; [|lia].
  set (m := Z.to_nat
              (Z.max 0 (Z.of_nat (List.length init + 1) + - num_moments))).
  assert (Hm : (m <= List.length init)%nat) by (unfold m; lia).
  rewrite skipn_app.
  replace (m - List.length init)%nat with 0%nat by lia.
  cbn [skipn]. rewrite map_app. cbn [map]. rewrite Hj0p.
  split.
  - apply in_or_app. right. left. reflexivity.
  - intros ->. replace m with (List.length init) by (unfold m; lia).
    rewrite skipn_all. reflexivity.
Qed.

(** X21.  A score sequence with a single highest value, at an interior
    index, always yields the moment around that index: asked for at least
    one moment (and with two seconds spanning at least one window) the
    computation finds the peak, keeps it through the height and distance
    filters and the top-K selection, and returns its moment; asked for
    exactly one moment it returns this moment alone. *)
Theorem best_peak_is_detected :
  forall (fps duration : Q) (num_moments : Z) (moment_duration : Q)
         (scores : list Q) (p : nat),
    (1 <= Py.int (fps * 2))%Z ->
    (1 <= num_moments)%Z ->
    (1 <= p)%nat -> (p + 1 < List.length scores)%nat ->
    (forall i, (i < List.length scores)%nat -> i <> p ->
               Np.item scores i < Np.item scores p) ->
    exists ms : list moment,
      moments_from_scores fps duration num_moments moment_duration scores
      = Ok (Some ms) /\
      In (moment_of_peak fps duration moment_duration scores p) ms /\
      (num_moments = 1%Z ->
       ms = [moment_of_peak fps duration moment_duration scores p]).
Proof.
  intros fps duration num_moments moment_duration scores p
         Hdist HK Hp1 Hp2 Hbest.
  assert (Hmaxima : In p (Scipy.local_maxima_1d scores)).
  { apply local_maxima_1d_complete; try assumption; apply Hbest; lia. }
  destruct (local_maxima_1d_spec scores) as [Hsorted Hlocal].
  set (height := Np.percentile scores 70).
  set (high := Scipy.select_by_height scores height
                 (Scipy.local_maxima_1d scores)).
  assert (Hheight : height <= Np.item scores p).
  { apply percentile_le_max.
    - destruct scores; [cbn in Hp2; lia|discriminate].
    - intros v Hv. destruct (In_nth scores v 0 Hv) as (i & Hi & <-).
      destruct (Nat.eq_dec i p) as [->|Hne]; [apply Qle_refl|].
      apply Qlt_le_weak. apply Hbest; assumption. }
  assert (Hhigh : In p high).
  { apply filter_In. split; [assumption|]. apply Qle_bool_iff. exact Hheight. }
  assert (Hhigh_sorted : StronglySorted lt high)
    by (apply filter_sorted; assumption).
  assert (Hhigh_range : forall q, In q high -> (q < List.length scores)%nat).
  { intros q Hq. apply filter_In in Hq. destruct Hq as [Hq _].
    rewrite Forall_forall in Hlocal.
    apply local_maximum_in_range, Hlocal, Hq. }
  destruct (In_nth high p 0%nat Hhigh) as (j0 & Hj0 & Hj0p).
  set (keep := Scipy.select_by_peak_distance high
                 (map (Np.item scores) high) (Py.int (fps * 2))).
  assert (Hkept : nth j0 keep false = true).
  { apply select_by_peak_distance_keeps_best; try assumption.
    - apply length_map.
    - intros j Hj Hne.
      rewrite !(nth_indep _ 0 (Np.item scores 0%nat))
        by (rewrite length_map; lia).
      rewrite !map_nth, Hj0p.
      apply Hbest; [apply Hhigh_range, nth_In; exact Hj|].
      intros Heq. apply Hne.
      apply (proj1 (NoDup_nth high 0%nat) (sorted_lt_NoDup high Hhigh_sorted));
        [lia|lia|congruence]. }
  set (peaks := Np.mask keep high).
  assert (Hpeaks : peaks_of_scores fps scores = Ok peaks).
  { unfold peaks_of_scores, Scipy.find_peaks.
    destruct (Z.ltb_spec (Py.int (fps * 2)) 1); [lia|reflexivity]. }
  assert (Hin : In p peaks).
  { rewrite <- Hj0p. apply mask_in_conv; assumption. }
  assert (Hnd : NoDup peaks)
    by (apply sorted_lt_NoDup, mask_sorted; assumption).
  destruct (top_peaks_keep_best scores peaks num_moments p Hnd Hin)
    as [Htop Hone]; [|exact HK|].
  { intros q Hq Hne. apply Hbest; [|exact Hne].
    apply Hhigh_range. apply (mask_incl keep high q Hq). }
  unfold moments_from_scores. rewrite Hpeaks.
  destruct (Nat.ltb_spec 0 (List.length peaks)) as [_|Hempty];
    [|destruct peaks; [contradiction|cbn in Hempty; lia]].
  eexists. split; [reflexivity|]. split.
  - unfold moments_of_peaks.
    apply (Permutation_in _ (sort_by_perm _ _)).
    apply in_map. exact Htop.
  - intros HK1. unfold moments_of_peaks. rewrite (Hone HK1). reflexivity.
Qed.

Lemma best_peak_is_detected_witness :
  exists ms : list moment,
    moments_from_scores 1 9 1 3 [0; 1; 0; 3; 0; 2; 0; 5; 0] = Ok (Some ms) /\
    In (moment_of_peak 1 9 3 [0; 1; 0; 3; 0; 2; 0; 5; 0] 7) ms /\
    (1%Z = 1%Z ->
     ms = [moment_of_peak 1 9 3 [0; 1; 0; 3; 0; 2; 0; 5; 0] 7]).
Proof.
  apply (best_peak_is_detected 1 9 1 3 [0; 1; 0; 3; 0; 2; 0; 5; 0] 7).
  - vm_compute. discriminate.
  - lia.
  - lia.
  - cbn. lia.
  - intros i Hi Hne.
    do 9 (destruct i as [|i]; [try congruence; reflexivity|]).
    cbn in Hi. lia.
Defined.

(** ** Scoring on six columns, and the outcomes of [generate_trailer] *)

(** X22.  When the audio and visual rows together have exactly six columns
    the scoring step succeeds: the two sequences are cut to the length of
    the shorter one and every aligned row receives one score. *)
Theorem excitement_scores_on_six_columns :
  forall (K : Kernels) (ca cv : nat) (a v : matrix),
    Forall (fun r => List.length r = ca) a ->
    Forall (fun r => List.length r = cv) v ->
    a <> [] -> v <> [] ->
    (ca + cv)%nat = 6%nat ->
    exists scores : list Q,
      excitement_scores K a v = Ok scores /\
      List.length scores = Nat.min (List.length a) (List.length v).
Proof.
  intros K ca cv a v Ha Hv Hna Hnv Hc.
  destruct a as [|ra a']; [congruence|].
  destruct v as [|rv v']; [congruence|].
  inversion Ha as [|? ? Hra _]; subst.
  inversion Hv as [|? ? Hrv _]; subst.
  unfold excitement_scores, Np.hstack.
  rewrite !length_firstn.
  replace (Nat.min (Nat.min (List.length (ra :: a')) (List.length (rv :: v')))
                   (List.length (ra :: a')) =?
           Nat.min (Nat.min (List.length (ra :: a')) (List.length (rv :: v')))
                   (List.length (rv :: v')))%nat with true
    by (symmetry; apply Nat.eqb_eq; lia).
  unfold Np.dot.
  set (stacked := map (fun p => fst p ++ snd p)
                      (combine (firstn _ (ra :: a')) (firstn _ (rv :: v')))).
  assert (Hrows : List.length (Sklearn.fit_transform K stacked)
                  = Nat.min (List.length (ra :: a')) (List.length (rv :: v'))).
  { unfold Sklearn.fit_transform, stacked.
    rewrite !length_map, length_combine, !length_firstn. lia. }
  assert (Hcols : Np.ncols (Sklearn.fit_transform K stacked) = 6%nat).
  { unfold stacked. cbn [List.length Nat.min firstn combine map fst snd].
    unfold Sklearn.fit_transform. cbn [map Np.ncols].
    rewrite length_map, length_combine, length_seq, Nat.min_id, length_app.
    exact Hc. }
  rewrite Hcols. cbn [weights List.length Nat.eqb].
  eexists. split; [reflexivity|]. rewrite length_map. exact Hrows.
Qed.

Lemma excitement_scores_on_six_columns_witness :
  exists scores : list Q,
    excitement_scores sample_kernels
      [[1; 2]; [3; 4]; [5; 6]] [[1; 0; 0; 0]; [0; 1; 0; 0]]
    = Ok scores /\
    List.length scores = 2%nat.
Proof.
  apply (excitement_scores_on_six_columns sample_kernels 2 4
           [[1; 2]; [3; 4]; [5; 6]] [[1; 0; 0; 0]; [0; 1; 0; 0]]).
  - repeat constructor.
  - repeat constructor.
  - discriminate.
  - discriminate.
  - reflexivity.
Defined.

(** X23.  Whatever the instance holds, [generate_trailer] never changes
    [self.moments], and it reaches the outside world only when it returns
    [True]: a run that raises or returns [False] leaves the instance and the
    event log exactly as they were. *)
Theorem generate_trailer_outcomes :
  forall (W : world) (K : Kernels) (self : MomentCatcher)
         (output_path : string) (max_duration : Q) (h : heap),
    moments (snd (generate_trailer W K self output_path max_duration h))
    = moments h /\
    (fst (generate_trailer W K self output_path max_duration h) <> Ok true ->
     snd (generate_trailer W K self output_path max_duration h) = h).
Proof.
  intros W K self output_path max_duration h.
  assert (Hrun :
            (exists e, generate_trailer W K self output_path max_duration h
                       = (Raise e, h))
            \/ generate_trailer W K self output_path max_duration h
               = (Ok false, h)
            \/ exists events,
                 generate_trailer W K self output_path max_duration h
                 = (Ok true,
                    {| moments := moments h; log := log h ++ events |})).
  { rewrite generate_trailer_step.
    destruct (detect_if_empty_leaves_heap K self h) as [[e He]|Hok].
    - rewrite He. left. exists e. reflexivity.
    - rewrite Hok.
      rewrite assemble_eq.
      destruct (select_clips max_duration (moments h)) as [|c clips].
      + right. left. reflexivity.
      + destruct (can_write W output_path).
        * right. right. eexists. reflexivity.
        * left. exists OSError. reflexivity. }
  destruct Hrun as [[e ->]|[->|[events ->]]]; cbn [fst snd moments].
  - split; [reflexivity|]. intros _. reflexivity.
  - split; [reflexivity|]. intros _. reflexivity.
  - split; [reflexivity|]. intros Hne. congruence.
Qed.

(** ** Runs of an instance

    What [detect_moments] and [generate_trailer] do on an instance that
    [__init__] has built and on which any methods have been called. *)





(** [detect_moments] raises [ValueError] as soon as both extractors deliver
    a row, with or without an audio track. *)
Lemma detect_moments_raises_on_rows (K : Kernels) (self : MomentCatcher)
    (a : matrix) (num_moments : Z) (moment_duration : Q) (h : heap) :
  extract_audio_features K self = Ok a ->
  a <> [] ->
  clip_frames (clip self) <> [] ->
  detect_moments K self num_moments moment_duration h = (Raise ValueError, h).
Proof.
  intros Ha Hna Hframes.
  pose proof (visual_features_nonempty K self Hframes) as Hnv.
  destruct (visual_features_shape K self) as [Hwv _].
  unfold detect_moments, mbind, lift. rewrite Ha.
  destruct a as [|ra a']; [congruence|].
  destruct (extract_visual_features K self) as [|rv v'] eqn:Ev; [congruence|].
  cbn [List.length Nat.ltb Nat.leb andb].
  destruct (clip_audio (clip self)) as [audio|] eqn:Haudio.
  - rewrite (excitement_scores_shape_error K 3 4); auto; try discriminate.
    apply (audio_features_width K self audio); assumption.
  - rewrite (excitement_scores_shape_error K 1 4); auto; try discriminate.
    apply (fallback_features_width K self); assumption.
Qed.








(** C5.  On an instance that holds no moment, [generate_trailer] does not
    report failure when the source has rows on both sides: the detection
    it starts raises [ValueError], and the exception leaves
    [generate_trailer] whatever the budget; no [False] is returned. *)
Theorem generate_trailer_raises_when_nothing_detected :
  forall (W : world) (K : Kernels) (self : MomentCatcher) (a : matrix)
         (output_path : string) (max_duration : Q) (h : heap),
    moments h = [] ->
    extract_audio_features K self = Ok a ->
    a <> [] ->
    clip_frames (clip self) <> [] ->
    generate_trailer W K self output_path max_duration h
    = (Raise ValueError, h).
Proof.
  intros W K self a output_path max_duration h Hm Ha Hna Hframes.
  rewrite generate_trailer_step.
  unfold detect_if_empty, mbind, get_moments. rewrite Hm.
  rewrite (detect_moments_raises_on_rows K self a _ _ h Ha Hna Hframes).
  reflexivity.
Qed.

Lemma generate_trailer_raises_when_nothing_detected_witness :
  generate_trailer (sample_world sample_clip) sample_kernels
    (catcher_of "clip.mp4" sample_clip) "outputs/trailer_clip.mp4" 30
    {| moments := []; log := [ClipOpen "clip.mp4"] |}
  = (Raise ValueError, {| moments := []; log := [ClipOpen "clip.mp4"] |}).
Proof.
  apply (generate_trailer_raises_when_nothing_detected
           (sample_world sample_clip) sample_kernels
           (catcher_of "clip.mp4" sample_clip)
           [[3; 2 # 3; 0]; [3; 2 # 3; 0]; [3; 2 # 3; 0]; [3; 2 # 3; 0];
            [3; 2 # 3; 0]; [3; 2 # 3; 0]; [3; 2 # 3; 0]]
           "outputs/trailer_clip.mp4" 30
           {| moments := []; log := [ClipOpen "clip.mp4"] |}
           eq_refl eq_refl ltac:(discriminate) ltac:(discriminate)).
Defined.

(** C10.  A caller that never ran detection gets no moment detected by
    [generate_trailer]: on an instance that holds no moment the call
    raises or returns [False], never [True], and leaves [self.moments]
    empty and the outside world untouched. *)
Theorem generate_trailer_detects_nothing :
  forall (W : world) (K : Kernels) (self : MomentCatcher)
         (output_path : string) (max_duration : Q) (h : heap),
    moments h = [] ->
    (exists e,
        generate_trailer W K self output_path max_duration h = (Raise e, h))
    \/ generate_trailer W K self output_path max_duration h = (Ok false, h).
Proof.
  intros W K self output_path max_duration h Hm.
  rewrite generate_trailer_step.
  destruct (detect_if_empty_leaves_heap K self h) as [[e He]|Hok];
    rewrite ?He, ?Hok.
  - left. exists e. reflexivity.
  - right. rewrite assemble_eq, Hm. reflexivity.
Qed.

Lemma generate_trailer_detects_nothing_witness :
  (exists e,
      generate_trailer (sample_world sample_clip) sample_kernels
        (catcher_of "clip.mp4" sample_clip) "outputs/trailer_clip.mp4" 30
        empty_heap = (Raise e, empty_heap))
  \/ generate_trailer (sample_world sample_clip) sample_kernels
       (catcher_of "clip.mp4" sample_clip) "outputs/trailer_clip.mp4" 30
       empty_heap = (Ok false, empty_heap).
Proof.
  apply (generate_trailer_detects_nothing (sample_world sample_clip)
           sample_kernels (catcher_of "clip.mp4" sample_clip)
           "outputs/trailer_clip.mp4" 30 empty_heap eq_refl).
Defined.

(** ** The installation scripts *)

Lemma path_exists_mkdir (fs : filesystem) (p q : string) :
  path_exists (mkdir fs p) q = path_exists fs q || String.eqb q p.
Proof.
  unfold mkdir. destruct (path_exists fs p) eqn:Hp.
  - destruct (String.eqb_spec q p) as [->|].
    + rewrite Hp. reflexivity.
    + rewrite orb_false_r. reflexivity.
  - unfold path_exists. cbn [existsb]. apply orb_comm.
Qed.

Lemma path_exists_fold_mkdir (dirs : list string) :
  forall (fs : filesystem) (q : string),
    path_exists (fold_left mkdir dirs fs) q
    = path_exists fs q || existsb (String.eqb q) dirs.
Proof.
  induction dirs as [|d dirs IH]; intros fs q; cbn [fold_left existsb].
  - rewrite orb_false_r. reflexivity.
  - rewrite IH, path_exists_mkdir, orb_assoc. reflexivity.
Qed.

Lemma path_exists_makedirs (path : string) (fs : filesystem) (q : string) :
  path_exists (makedirs path fs) q
  = path_exists fs q
    || existsb (String.eqb q) (ancestors_from "" path ++ [path]).
Proof. unfold makedirs. apply path_exists_fold_mkdir. Qed.

Lemma path_exists_create_directories (fs : filesystem) (q : string) :
  path_exists (snd (create_directories fs)) q
  = path_exists fs q
    || existsb (String.eqb q)
         ["uploads"; "outputs"; "static"; "static/css"; "static/js";
          "templates"]%string.
Proof.
  unfold create_directories, setup_directories. cbn [snd fold_left].
  rewrite !path_exists_makedirs.
  cbn [ancestors_from Ascii.eqb Bool.eqb String.eqb String.append app existsb].
  destruct (path_exists fs q); [reflexivity|]. cbn [orb].
  destruct (String.eqb q "uploads"), (String.eqb q "outputs"),
    (String.eqb q "static"), (String.eqb q "static/css"),
    (String.eqb q "static/js"), (String.eqb q "templates"); reflexivity.
Qed.

(** X24.  Whatever the directory tree was, after [create_directories] of
    [setup.py] the check [test_directories] of [test_installation.py]
    passes with no directory missing (the [static] folder it looks for is
    created as the parent of [static/css]), and every directory that
    existed before still exists. *)
Theorem created_directories_pass_the_test :
  forall fs : filesystem,
    test_directories (snd (create_directories fs)) = (true, []) /\
    (forall q, path_exists fs q = true ->
               path_exists (snd (create_directories fs)) q = true).
Proof.
  intros fs. split.
  - unfold test_directories, required_dirs. cbn [filter].
    rewrite !path_exists_create_directories.
    cbn [existsb String.eqb Ascii.eqb Bool.eqb].
    rewrite !orb_true_r. reflexivity.
  - intros q Hq. rewrite path_exists_create_directories, Hq. reflexivity.
Qed.

(** X25.  [setup.py] exits with status 1 exactly when the interpreter is
    older than 3.8 or [pip install] fails; a missing FFmpeg only turns the
    final message into a warning.  With too old an interpreter nothing is
    created and no command runs; otherwise the directories are in place,
    and pass [test_directories], even when [pip install] fails. *)
Theorem setup_main_outcomes :
  forall (env : setup_env) (fs : filesystem),
    (fst (fst (setup_main env fs)) = SysExit 1
     <-> check_python_version env = false \/ pip_succeeds env = false) /\
    (check_python_version env = false ->
     setup_main env fs = (SysExit 1, fs, [])) /\
    (check_python_version env = true ->
     test_directories (snd (fst (setup_main env fs))) = (true, []) /\
     In PipInstall (snd (setup_main env fs))) /\
    (check_python_version env = true -> pip_succeeds env = true ->
     fst (fst (setup_main env fs)) = Completed (ffmpeg_runs env)).
Proof.
  intros env fs.
  assert (Htest : test_directories (snd (create_directories fs)) = (true, [])).
  { unfold test_directories, required_dirs. cbn [filter].
    rewrite !path_exists_create_directories.
    cbn [existsb String.eqb Ascii.eqb Bool.eqb].
    rewrite !orb_true_r. reflexivity. }
  unfold setup_main, install_requirements, check_ffmpeg.
  destruct (check_python_version env) eqn:Hpy;
    destruct (pip_succeeds env) eqn:Hpip;
    cbn [negb create_directories fst snd] in *.
  - split; [split; [discriminate|intros [H|H]; discriminate]|].
    split; [discriminate|]. split; [|reflexivity].
    intros _. split; [exact Htest|]. left. reflexivity.
  - split; [split; [right; reflexivity|reflexivity]|].
    split; [discriminate|]. split; [|discriminate].
    intros _. split; [exact Htest|]. left. reflexivity.
  - split; [split; [left; reflexivity|reflexivity]|].
    split; [reflexivity|]. split; discriminate.
  - split; [split; [left; reflexivity|reflexivity]|].
    split; [reflexivity|]. split; discriminate.
Qed.

(** X26.  Importing [app.py] leaves the upload and output folders in
    place whatever the directory tree was, removes nothing, and is
    idempotent: a second import finds both folders and changes nothing. *)
Theorem app_directories_exist :
  forall fs : filesystem,
    path_exists (app_directories fs) UPLOAD_FOLDER = true /\
    path_exists (app_directories fs) OUTPUT_FOLDER = true /\
    (forall q, path_exists fs q = true ->
               path_exists (app_directories fs) q = true) /\
    app_directories (app_directories fs) = app_directories fs.
Proof.
  intros fs.
  assert (Hex : forall q,
             path_exists (app_directories fs) q
             = path_exists fs q || String.eqb q "uploads"
               || String.eqb q "outputs").
  { intros q. unfold app_directories, UPLOAD_FOLDER, OUTPUT_FOLDER.
    rewrite !path_exists_makedirs.
    cbn [ancestors_from Ascii.eqb Bool.eqb String.eqb String.append app
         existsb].
    rewrite !orb_false_r. reflexivity. }
  assert (Hup : path_exists (app_directories fs) "uploads" = true).
  { rewrite Hex. cbn [String.eqb Ascii.eqb Bool.eqb].
    rewrite orb_true_r. reflexivity. }
  assert (Hout : path_exists (app_directories fs) "outputs" = true).
  { rewrite Hex. cbn [String.eqb Ascii.eqb Bool.eqb].
    rewrite orb_true_r. reflexivity. }
  split; [exact Hup|]. split; [exact Hout|]. split.
  - intros q Hq. rewrite Hex, Hq. reflexivity.
  - unfold app_directories at 1. unfold makedirs, UPLOAD_FOLDER, OUTPUT_FOLDER.
    cbn [ancestors_from Ascii.eqb Bool.eqb String.eqb String.append app
         fold_left].
    unfold mkdir at 2. rewrite Hup.
    unfold mkdir. rewrite Hout. reflexivity.
Qed.
